(** * adventure_game: the orc animation state machine and the camera follow

    A shallow embedding of [src/constants.py], [src/sprites/orc.py] and the
    intent and camera routines of [src/main.py].

    Numbers: Python mixes [int] and [float] freely in these files (the clock
    is assigned the literal 0 and then has a float added to it).  Times,
    velocities and positions are rationals [Q]; counters and state codes are
    integers.  Rounding of floats is not modelled. *)

From Stdlib Require Import List Bool ZArith QArith Qminmax Lqa.
Import ListNotations.

Local Open Scope Q_scope.

(** ** Comparisons of Python numbers, as booleans *)

Definition Qlt_bool (x y : Q) : bool := negb (Qle_bool y x).

Definition Qne_bool (x y : Q) : bool := negb (Qeq_bool x y).

(** Points are Python 2-tuples. *)
Definition Point2 : Type := (Q * Q)%type.

Definition pt_eq (p q : Point2) : Prop := fst p == fst q /\ snd p == snd q.

(** ** constants.py *)

Module Constants.

Definition DEFAULT_WINDOW_WIDTH : Q := 1600.
Definition DEFAULT_WINDOW_HEIGHT : Q := 1200.

Definition SPRITE_SCALE : Q := 4.

(* How fast the camera pans to the player. 1.0 is instant. *)
Definition CAMERA_SPEED : Q := 1 # 10.

Definition VIEWPORT_MARGIN : Q := 400.

Definition HORIZONTAL_BOUNDARY : Q := DEFAULT_WINDOW_WIDTH / 2 - VIEWPORT_MARGIN.
Definition VERTICAL_BOUNDARY : Q := DEFAULT_WINDOW_HEIGHT / 2 - VIEWPORT_MARGIN.

(** [arcade.LRBT(left, right, bottom, top)]: a rectangle by its four edges. *)
Record Rect : Type := LRBT {
  rect_left : Q;
  rect_right : Q;
  rect_bottom : Q;
  rect_top : Q
}.

Definition CAMERA_BOUNDARY : Rect :=
  LRBT (- HORIZONTAL_BOUNDARY) HORIZONTAL_BOUNDARY
       (- VERTICAL_BOUNDARY) VERTICAL_BOUNDARY.

End Constants.

(** ** sprites/orc.py *)

Module Orc.

Definition ANIMATION_STATE_IDLE_RIGHT : nat := 0.
Definition ANIMATION_STATE_WALK_RIGHT : nat := 1.
Definition ANIMATION_STATE_ATTACK_1_RIGHT : nat := 2.
Definition ANIMATION_STATE_ATTACK_2_RIGHT : nat := 3.

Definition ANIMATION_STATE_IDLE_LEFT : nat := 5.
Definition ANIMATION_STATE_WALK_LEFT : nat := 6.
Definition ANIMATION_STATE_ATTACK_1_LEFT : nat := 7.
Definition ANIMATION_STATE_ATTACK_2_LEFT : nat := 8.

(** The state codes by the names the constants give them: what the sprite
    does, and the way it faces. *)
Inductive Motion : Type := Idle | Walk | Attack_1 | Attack_2.

Inductive Direction : Type := Left | Right.

Definition code_of (m : Motion) (d : Direction) : nat :=
  match m, d with
  | Idle, Right => ANIMATION_STATE_IDLE_RIGHT
  | Walk, Right => ANIMATION_STATE_WALK_RIGHT
  | Attack_1, Right => ANIMATION_STATE_ATTACK_1_RIGHT
  | Attack_2, Right => ANIMATION_STATE_ATTACK_2_RIGHT
  | Idle, Left => ANIMATION_STATE_IDLE_LEFT
  | Walk, Left => ANIMATION_STATE_WALK_LEFT
  | Attack_1, Left => ANIMATION_STATE_ATTACK_1_LEFT
  | Attack_2, Left => ANIMATION_STATE_ATTACK_2_LEFT
  end.

(** [is_facing_right] as a direction. *)
Definition facing (is_facing_right : bool) : Direction :=
  if is_facing_right then Right else Left.

(** The eight state codes the state machine assigns to [animation_state]. *)
Definition state_codes : list nat :=
  [ ANIMATION_STATE_IDLE_RIGHT; ANIMATION_STATE_WALK_RIGHT;
    ANIMATION_STATE_ATTACK_1_RIGHT; ANIMATION_STATE_ATTACK_2_RIGHT;
    ANIMATION_STATE_IDLE_LEFT; ANIMATION_STATE_WALK_LEFT;
    ANIMATION_STATE_ATTACK_1_LEFT; ANIMATION_STATE_ATTACK_2_LEFT ].

(** A sprite sheet is known here only by whether it has been mirrored. *)
Record SpriteSheet : Type := mkSheet { sheet_flipped : bool }.

Definition SpriteSheet_open : SpriteSheet := mkSheet false.

Definition flip_left_right (sheet : SpriteSheet) : SpriteSheet :=
  mkSheet (negb (sheet_flipped sheet)).

(** A frame identifier: the sheet orientation, the row and the position in
    the row it was cut from. *)
Record Texture : Type := mkTexture {
  tex_flipped : bool;
  tex_row : nat;
  tex_index : nat
}.

(** Modelled from the spec: [load_100x100_textures] of
    sprites/animated_sprite.py, which is not among the sources.  The asset
    loader supplies, for one row of the sheet, the ordered sequence of
    [count] frame identifiers; [from_right] only changes which end of the
    mirrored sheet the cells are cut from, not how many there are. *)
Definition load_100x100_textures
    (sheet : SpriteSheet) (row count : nat) (from_right : bool) : list Texture :=
  map (mkTexture (sheet_flipped sheet) row) (seq 0 count).

(** The fields an [OrcSprite] inherits from [AnimatedSprite] (and, through
    it, the velocity of [arcade.Sprite]). *)
Record AnimatedSprite : Type := mkAnimated {
  texture_sets : list (list Texture);
  animation_state : nat;
  texture_clock : Q;
  change_x : Q;
  change_y : Q
}.

Definition set_texture_sets (v : list (list Texture)) (a : AnimatedSprite) :=
  mkAnimated v (animation_state a) (texture_clock a) (change_x a) (change_y a).

Definition set_animation_state (v : nat) (a : AnimatedSprite) :=
  mkAnimated (texture_sets a) v (texture_clock a) (change_x a) (change_y a).

Definition set_texture_clock (v : Q) (a : AnimatedSprite) :=
  mkAnimated (texture_sets a) (animation_state a) v (change_x a) (change_y a).

Definition set_change (vx vy : Q) (a : AnimatedSprite) :=
  mkAnimated (texture_sets a) (animation_state a) (texture_clock a) vx vy.

(** Modelled from the spec: [AnimatedSprite.__init__] of
    sprites/animated_sprite.py, which is not among the sources.  The
    sequence table is assembled at construction from what the asset loader
    supplies, so the inherited table starts with no sequence in it; the
    clock, the state code and the velocity start at zero. *)
Definition AnimatedSprite_init : AnimatedSprite :=
  mkAnimated [] 0 0 0 0.

(** Modelled from the spec: [AnimatedSprite.update] of
    sprites/animated_sprite.py, which is not among the sources.  The clock is
    an elapsed-time accumulator; a negative [delta_time] counts as zero, so
    the clock never runs backwards.  Choosing the frame to draw from the
    clock belongs to rendering and is left out. *)
Definition AnimatedSprite_update (delta_time : Q) (a : AnimatedSprite) : AnimatedSprite :=
  set_texture_clock (texture_clock a + Qmax 0 delta_time) a.

Record OrcSprite : Type := mkOrc {
  super : AnimatedSprite;
  is_facing_right : bool;
  attack_animation : Z
}.

Definition with_super
    (f : AnimatedSprite -> AnimatedSprite) (s : OrcSprite) : OrcSprite :=
  mkOrc (f (super s)) (is_facing_right s) (attack_animation s).

Definition set_is_facing_right (v : bool) (s : OrcSprite) : OrcSprite :=
  mkOrc (super s) v (attack_animation s).

Definition set_attack_animation (v : Z) (s : OrcSprite) : OrcSprite :=
  mkOrc (super s) (is_facing_right s) v.

(* Idle, Walk, attack 1, attack 2 *)
Definition sprite_count : list nat := [6; 8; 6; 6]%nat.

(** One [for i in range(len(sprite_count))] loop of [__init__]: the sets it
    appends, in order. *)
Definition load_rows (sheet : SpriteSheet) (from_right : bool) : list (list Texture) :=
  map (fun i => load_100x100_textures sheet i (nth i sprite_count 0%nat) from_right)
      (seq 0 (length sprite_count)).

(** [OrcSprite.__init__].  [u] is the value [random.uniform(0, 1)] returns. *)
Definition OrcSprite_init (u : Q) : OrcSprite :=
  let s := mkOrc AnimatedSprite_init true 0%Z in
  let s := with_super (set_texture_clock u) s in
  let sprite_sheet := SpriteSheet_open in
  (* - Face Right *)
  let s := with_super (fun a => set_texture_sets
                         (texture_sets a ++ load_rows sprite_sheet false) a) s in
  (* - Face Left *)
  let sprite_sheet := flip_left_right sprite_sheet in
  let s := with_super (fun a => set_texture_sets
                         (texture_sets a ++ load_rows sprite_sheet true) a) s in
  with_super (set_animation_state ANIMATION_STATE_IDLE_RIGHT) s.

Definition attack_1 (s : OrcSprite) : OrcSprite :=
  if (0 <? attack_animation s)%Z then s
  else
    let s := set_attack_animation 1 s in
    let s := with_super (set_texture_clock 0) s in
    if is_facing_right s
    then with_super (set_animation_state ANIMATION_STATE_ATTACK_1_RIGHT) s
    else with_super (set_animation_state ANIMATION_STATE_ATTACK_1_LEFT) s.

Definition attack_2 (s : OrcSprite) : OrcSprite :=
  if (0 <? attack_animation s)%Z then s
  else
    let s := set_attack_animation 2 s in
    let s := with_super (set_texture_clock 0) s in
    if is_facing_right s
    then with_super (set_animation_state ANIMATION_STATE_ATTACK_2_RIGHT) s
    else with_super (set_animation_state ANIMATION_STATE_ATTACK_2_LEFT) s.

(** What a method call leaves behind: the object after a normal return, or
    the object as it stood when [IndexError] was raised. *)
Inductive outcome : Type :=
  | Returned (s : OrcSprite)
  | IndexError (s : OrcSprite).

Definition sprite_of (r : outcome) : OrcSprite :=
  match r with
  | Returned s => s
  | IndexError s => s
  end.

(** [len(seq) / 10] *)
Definition animation_length_of (frames : list Texture) : Q :=
  inject_Z (Z.of_nat (length frames)) / 10.

Definition update (delta_time : Q) (s : OrcSprite) : outcome :=
  let s := with_super (AnimatedSprite_update delta_time) s in
  if (0 <? attack_animation s)%Z then
    match nth_error (texture_sets (super s)) (animation_state (super s)) with
    | None => IndexError s
    | Some frames =>
        let animation_length := animation_length_of frames in
        if Qle_bool animation_length (texture_clock (super s))
        then Returned (set_attack_animation 0 s)
        else Returned s
    end
  else if Qlt_bool (change_x (super s)) 0 then
    let s := set_is_facing_right false s in
    Returned (with_super (set_animation_state ANIMATION_STATE_WALK_LEFT) s)
  else if Qlt_bool 0 (change_x (super s)) then
    let s := set_is_facing_right true s in
    Returned (with_super (set_animation_state ANIMATION_STATE_WALK_RIGHT) s)
  else if Qne_bool (change_y (super s)) 0 then
    if is_facing_right s
    then Returned (with_super (set_animation_state ANIMATION_STATE_WALK_RIGHT) s)
    else Returned (with_super (set_animation_state ANIMATION_STATE_WALK_LEFT) s)
  else
    if is_facing_right s
    then Returned (with_super (set_animation_state ANIMATION_STATE_IDLE_RIGHT) s)
    else Returned (with_super (set_animation_state ANIMATION_STATE_IDLE_LEFT) s).

(** What can happen to a sprite between two frames: the engine writes the
    movement intent and calls [update], or a trigger calls an attack. *)
Inductive event : Type :=
  | Tick (delta_time dx dy : Q)
  | Attack1
  | Attack2.

Definition step (e : event) (s : OrcSprite) : outcome :=
  match e with
  | Tick delta_time dx dy => update delta_time (with_super (set_change dx dy) s)
  | Attack1 => Returned (attack_1 s)
  | Attack2 => Returned (attack_2 s)
  end.

(** A run of events; an uncaught [IndexError] ends it. *)
Fixpoint run (evs : list event) (s : OrcSprite) : outcome :=
  match evs with
  | [] => Returned s
  | e :: evs' =>
      match step e s with
      | Returned s' => run evs' s'
      | IndexError s' => IndexError s'
      end
  end.

(** The test [texture_clock >= animation_length] as [update] would make it
    on a tick of [delta_time]: the clock the inherited update leaves against
    the nominal duration of the current sequence. *)
Definition expiring (delta_time : Q) (s : OrcSprite) : bool :=
  match nth_error (texture_sets (super s)) (animation_state (super s)) with
  | None => false
  | Some frames =>
      Qle_bool (animation_length_of frames)
               (texture_clock (super s) + Qmax 0 delta_time)
  end.

(** No tick of the run finds the elapsed clock at the nominal duration. *)
Fixpoint unexpired (evs : list event) (s : OrcSprite) : bool :=
  match evs with
  | [] => true
  | e :: evs' =>
      match e with
      | Tick delta_time _ _ => negb (expiring delta_time s)
      | Attack1 | Attack2 => true
      end
      && match step e s with
         | Returned s' => unexpired evs' s'
         | IndexError _ => true
         end
  end.

End Orc.

(** ** main.py: movement intent and camera follow *)

Module Window.

Import Constants.

(** Modelled from the spec: [arcade.camera.grips.constrain_boundary_xy],
    a routine of the engine that is not among the sources.  Axis by axis:
    when the player's offset from the camera leaves the boundary's extent,
    the target is shifted so that the player sits exactly on the edge it
    crossed; inside the extent the target is the camera position itself. *)
Definition constrain_axis (lo hi camera player : Q) : Q :=
  let offset := player - camera in
  if Qlt_bool hi offset then player - hi
  else if Qlt_bool offset lo then player - lo
  else camera.

Definition constrain_boundary_xy
    (camera : Point2) (bounds : Rect) (point : Point2) : Point2 :=
  (constrain_axis (rect_left bounds) (rect_right bounds) (fst camera) (fst point),
   constrain_axis (rect_bottom bounds) (rect_top bounds) (snd camera) (snd point)).

(** Modelled from the spec: [arcade.math.lerp_2d], a routine of the engine
    that is not among the sources: [previous + factor * (target - previous)]
    on each component. *)
Definition lerp (v1 v2 u : Q) : Q := v1 + (v2 - v1) * u.

Definition lerp_2d (v1 v2 : Point2) (u : Q) : Point2 :=
  (lerp (fst v1) (fst v2) u, lerp (snd v1) (snd v2) u).

(** The part of [AdventureGameWindow] the intent and camera routines use. *)
Record AdventureGameWindow : Type := mkWindow {
  left_pressed : bool;
  right_pressed : bool;
  up_pressed : bool;
  down_pressed : bool;
  player_speed : Z;
  player_change_x : Z;
  player_change_y : Z;
  player_position : Point2;
  camera_position : Point2
}.

Definition set_player_change_x (v : Z) (w : AdventureGameWindow) :=
  mkWindow (left_pressed w) (right_pressed w) (up_pressed w) (down_pressed w)
           (player_speed w) v (player_change_y w)
           (player_position w) (camera_position w).

Definition set_player_change_y (v : Z) (w : AdventureGameWindow) :=
  mkWindow (left_pressed w) (right_pressed w) (up_pressed w) (down_pressed w)
           (player_speed w) (player_change_x w) v
           (player_position w) (camera_position w).

Definition set_camera_position (v : Point2) (w : AdventureGameWindow) :=
  mkWindow (left_pressed w) (right_pressed w) (up_pressed w) (down_pressed w)
           (player_speed w) (player_change_x w) (player_change_y w)
           (player_position w) v.

Definition update_player_speed (w : AdventureGameWindow) : AdventureGameWindow :=
  (* Calculate speed based on the keys pressed *)
  let w := set_player_change_x 0 w in
  let w := set_player_change_y 0 w in
  let w :=
    if up_pressed w && negb (down_pressed w)
    then set_player_change_y (player_speed w) w
    else if down_pressed w && negb (up_pressed w)
    then set_player_change_y (- player_speed w)%Z w
    else w in
  if left_pressed w && negb (right_pressed w)
  then set_player_change_x (- player_speed w)%Z w
  else if right_pressed w && negb (left_pressed w)
  then set_player_change_x (player_speed w) w
  else w.

(** The body of [scroll_to_player], with the boundary and the speed it reads
    from constants.py as arguments. *)
Definition scroll (bounds : Rect) (speed : Q) (camera player : Point2) : Point2 :=
  let new_position := constrain_boundary_xy camera bounds player in
  lerp_2d camera (fst new_position, snd new_position) speed.

Definition scroll_to_player (w : AdventureGameWindow) : AdventureGameWindow :=
  set_camera_position
    (scroll CAMERA_BOUNDARY CAMERA_SPEED (camera_position w) (player_position w)) w.


End Window.

(** ** main.py: the key handlers *)

Module Input.

Import Window.

(** The codes of [arcade.key.W], [arcade.key.S], [arcade.key.A] and
    [arcade.key.D]: constants of the engine, taken as they come. *)
Record KeyCodes : Type := mkKeyCodes {
  key_W : Z;
  key_S : Z;
  key_A : Z;
  key_D : Z
}.

(** The codes the engine ships: the ASCII codes of the lower-case letters. *)
Definition arcade_key : KeyCodes := mkKeyCodes 119 115 97 100.

Definition set_left_pressed (v : bool) (w : AdventureGameWindow) :=
  mkWindow v (right_pressed w) (up_pressed w) (down_pressed w)
           (player_speed w) (player_change_x w) (player_change_y w)
           (player_position w) (camera_position w).

Definition set_right_pressed (v : bool) (w : AdventureGameWindow) :=
  mkWindow (left_pressed w) v (up_pressed w) (down_pressed w)
           (player_speed w) (player_change_x w) (player_change_y w)
           (player_position w) (camera_position w).

Definition set_up_pressed (v : bool) (w : AdventureGameWindow) :=
  mkWindow (left_pressed w) (right_pressed w) v (down_pressed w)
           (player_speed w) (player_change_x w) (player_change_y w)
           (player_position w) (camera_position w).

Definition set_down_pressed (v : bool) (w : AdventureGameWindow) :=
  mkWindow (left_pressed w) (right_pressed w) (up_pressed w) v
           (player_speed w) (player_change_x w) (player_change_y w)
           (player_position w) (camera_position w).

Definition on_key_press
    (keys : KeyCodes) (key modifiers : Z) (w : AdventureGameWindow)
    : AdventureGameWindow :=
  if (key =? key_W keys)%Z then update_player_speed (set_up_pressed true w)
  else if (key =? key_S keys)%Z then update_player_speed (set_down_pressed true w)
  else if (key =? key_A keys)%Z then update_player_speed (set_left_pressed true w)
  else if (key =? key_D keys)%Z then update_player_speed (set_right_pressed true w)
  else w.

Definition on_key_release
    (keys : KeyCodes) (key modifiers : Z) (w : AdventureGameWindow)
    : AdventureGameWindow :=
  if (key =? key_W keys)%Z then update_player_speed (set_up_pressed false w)
  else if (key =? key_S keys)%Z then update_player_speed (set_down_pressed false w)
  else if (key =? key_A keys)%Z then update_player_speed (set_left_pressed false w)
  else if (key =? key_D keys)%Z then update_player_speed (set_right_pressed false w)
  else w.

(** What the keyboard sends. *)
Inductive key_event : Type :=
  | Press (key modifiers : Z)
  | Release (key modifiers : Z).

Definition key_of (e : key_event) : Z :=
  match e with
  | Press key _ => key
  | Release key _ => key
  end.

Definition handle (keys : KeyCodes) (e : key_event) (w : AdventureGameWindow)
    : AdventureGameWindow :=
  match e with
  | Press key modifiers => on_key_press keys key modifiers w
  | Release key modifiers => on_key_release keys key modifiers w
  end.

(** The events of the list are handled first to last. *)
Definition handle_all (keys : KeyCodes) (evs : list key_event)
    (w : AdventureGameWindow) : AdventureGameWindow :=
  fold_left (fun w e => handle keys e w) evs w.

(** The flag a key writes, as the window holds it; a key that the handlers
    do not know is never held. *)
Definition held (keys : KeyCodes) (key : Z) (w : AdventureGameWindow) : bool :=
  if (key =? key_W keys)%Z then up_pressed w
  else if (key =? key_S keys)%Z then down_pressed w
  else if (key =? key_A keys)%Z then left_pressed w
  else if (key =? key_D keys)%Z then right_pressed w
  else false.

(** [n] frames of [scroll_to_player]. *)
Definition scroll_frames (n : nat) (w : AdventureGameWindow) : AdventureGameWindow :=
  Nat.iter n scroll_to_player w.

End Input.

(** ** Runs of the orc: vocabulary for what they keep *)

Module OrcRuns.

Import Orc.

(** The sequence table [__init__] leaves in [texture_sets]. *)
Definition built_table : list (list Texture) :=
  load_rows SpriteSheet_open false
  ++ load_rows (flip_left_right SpriteSheet_open) true.

(** The shape of a sprite between calls: the table is the one built at
    construction, the action state is 0, 1 or 2, the key faces the way the
    sprite does, and during an attack the key is that attack's. *)
Definition coherent (s : OrcSprite) : Prop :=
  texture_sets (super s) = built_table
  /\ ((attack_animation s = 0%Z
       /\ exists m : Motion,
            animation_state (super s) = code_of m (facing (is_facing_right s)))
      \/ (attack_animation s = 1%Z
          /\ animation_state (super s)
             = code_of Attack_1 (facing (is_facing_right s)))
      \/ (attack_animation s = 2%Z
          /\ animation_state (super s)
             = code_of Attack_2 (facing (is_facing_right s)))).

Definition is_tick (e : event) : bool :=
  match e with
  | Tick _ _ _ => true
  | Attack1 | Attack2 => false
  end.

Definition is_attack_2 (e : event) : bool :=
  match e with
  | Attack2 => true
  | Tick _ _ _ | Attack1 => false
  end.

(** A tick whose horizontal intent points left. *)
Definition heads_left (e : event) : bool :=
  match e with
  | Tick _ dx _ => Qlt_bool dx 0
  | Attack1 | Attack2 => false
  end.

End OrcRuns.

(** * Properties *)

Import Constants Orc Window.

(** ** Boolean comparisons against the order of [Q] *)

Lemma Qlt_bool_true (x y : Q) : Qlt_bool x y = true <-> x < y.
Proof.
  unfold Qlt_bool. rewrite negb_true_iff. split.
  - intros H. apply Qnot_le_lt. intros Hle.
    apply Qle_bool_iff in Hle. congruence.
  - intros H. destruct (Qle_bool y x) eqn:E; [|reflexivity].
    apply Qle_bool_iff in E. exfalso. apply (Qlt_not_le _ _ H E).
Qed.

Lemma Qlt_bool_false (x y : Q) : Qlt_bool x y = false <-> y <= x.
Proof.
  unfold Qlt_bool. rewrite negb_false_iff. apply Qle_bool_iff.
Qed.

Lemma Qne_bool_true (x y : Q) : Qne_bool x y = true <-> ~ x == y.
Proof.
  unfold Qne_bool. rewrite negb_true_iff. split.
  - intros H Heq. apply Qeq_bool_iff in Heq. congruence.
  - intros H. destruct (Qeq_bool x y) eqn:E; [|reflexivity].
    apply Qeq_bool_iff in E. contradiction.
Qed.

Lemma Qne_bool_false (x y : Q) : Qne_bool x y = false <-> x == y.
Proof.
  unfold Qne_bool. rewrite negb_false_iff. apply Qeq_bool_iff.
Qed.

(** Case analysis on a comparison, with the order fact in the context. *)
Ltac case_Qlt x y :=
  let E := fresh "E" in
  destruct (Qlt_bool x y) eqn:E;
  [ apply Qlt_bool_true in E | apply Qlt_bool_false in E ].

Ltac case_Qne x y :=
  let E := fresh "E" in
  destruct (Qne_bool x y) eqn:E;
  [ apply Qne_bool_true in E | apply Qne_bool_false in E ].

(** ** The sprite as constructed *)

Lemma init_texture_sets (u : Q) :
  texture_sets (super (OrcSprite_init u))
  = load_rows SpriteSheet_open false
    ++ load_rows (flip_left_right SpriteSheet_open) true.
Proof. reflexivity. Qed.

Lemma init_frame_counts (u : Q) :
  map (@length Texture) (texture_sets (super (OrcSprite_init u)))
  = [6; 8; 6; 6; 6; 8; 6; 6]%nat.
Proof. reflexivity. Qed.

(** C10.  A freshly constructed orc is not attacking, faces right and is in
    the idle-right state, and its clock is whatever [random.uniform(0, 1)]
    returned: draws in [0,1) give a clock that is not zero, and two
    constructions with different draws are different sprites. *)
Theorem fresh_orc_default_state :
  (forall u : Q,
      attack_animation (OrcSprite_init u) = 0%Z
      /\ is_facing_right (OrcSprite_init u) = true
      /\ animation_state (super (OrcSprite_init u)) = ANIMATION_STATE_IDLE_RIGHT
      /\ animation_state (super (OrcSprite_init u)) = code_of Idle Right
      /\ texture_clock (super (OrcSprite_init u)) = u)
  /\ (exists u : Q,
         0 <= u /\ u < 1 /\ ~ texture_clock (super (OrcSprite_init u)) == 0)
  /\ (exists u1 u2 : Q,
         (0 <= u1 /\ u1 < 1) /\ (0 <= u2 /\ u2 < 1)
         /\ ~ texture_clock (super (OrcSprite_init u1))
              == texture_clock (super (OrcSprite_init u2))
         /\ OrcSprite_init u1 <> OrcSprite_init u2).
Proof.
  split; [|split].
  - intros u. repeat split.
  - exists (1 # 2). cbn. repeat split; lra.
  - exists (1 # 4), (3 # 4). cbn. repeat split; try lra.
    intros H. discriminate H.
Qed.

(** ** Attack triggers *)

(** What an accepted trigger writes, and what a trigger does while an
    action is in progress. *)
Lemma trigger_started (s : OrcSprite) :
  (attack_animation s = 0%Z ->
     (attack_animation (attack_1 s) = 1%Z
      /\ texture_clock (super (attack_1 s)) = 0
      /\ is_facing_right (attack_1 s) = is_facing_right s
      /\ animation_state (super (attack_1 s))
         = code_of Attack_1 (facing (is_facing_right s))
      /\ texture_sets (super (attack_1 s)) = texture_sets (super s))
     /\
     (attack_animation (attack_2 s) = 2%Z
      /\ texture_clock (super (attack_2 s)) = 0
      /\ is_facing_right (attack_2 s) = is_facing_right s
      /\ animation_state (super (attack_2 s))
         = code_of Attack_2 (facing (is_facing_right s))
      /\ texture_sets (super (attack_2 s)) = texture_sets (super s)))
  /\
  ((0 < attack_animation s)%Z -> attack_1 s = s /\ attack_2 s = s).
Proof.
  split.
  - intros H0. unfold attack_1, attack_2. rewrite H0. cbn.
    destruct (is_facing_right s) eqn:Ef; cbn; rewrite ?Ef; repeat split.
  - intros Hpos. apply Z.ltb_lt in Hpos.
    unfold attack_1, attack_2. rewrite Hpos. split; reflexivity.
Qed.

(** C5.  With no action in progress a trigger starts its action at once: the
    action state becomes the triggered kind, the clock is 0, the direction is
    kept and the key is that of the attack in the current direction.  With
    an action in progress the trigger changes nothing at all. *)
Theorem trigger_starts_or_is_dropped (s : OrcSprite) :
  (attack_animation s = 0%Z ->
     (attack_animation (attack_1 s) = 1%Z
      /\ texture_clock (super (attack_1 s)) = 0
      /\ is_facing_right (attack_1 s) = is_facing_right s
      /\ animation_state (super (attack_1 s))
         = code_of Attack_1 (facing (is_facing_right s)))
     /\
     (attack_animation (attack_2 s) = 2%Z
      /\ texture_clock (super (attack_2 s)) = 0
      /\ is_facing_right (attack_2 s) = is_facing_right s
      /\ animation_state (super (attack_2 s))
         = code_of Attack_2 (facing (is_facing_right s))))
  /\
  ((0 < attack_animation s)%Z -> attack_1 s = s /\ attack_2 s = s).
Proof.
  destruct (trigger_started s) as [Hstart Hbusy].
  split; [|exact Hbusy].
  intros H0. destruct (Hstart H0) as [[A1 [C1 [F1 [K1 _]]]] [A2 [C2 [F2 [K2 _]]]]].
  repeat split; assumption.
Qed.

Lemma trigger_starts_or_is_dropped_witness :
  let idle := OrcSprite_init (1 # 2) in
  let busy := attack_2 idle in
  (attack_animation idle = 0%Z /\ (0 < attack_animation busy)%Z)
  /\ animation_state (super (attack_1 idle)) = code_of Attack_1 Right
  /\ attack_1 busy = busy.
Proof.
  cbv zeta. split; [split; [reflexivity | reflexivity] |]. split.
  - exact (proj2 (proj2 (proj2 (proj1
      (proj1 (trigger_starts_or_is_dropped (OrcSprite_init (1 # 2)))
             eq_refl))))).
  - exact (proj1
      (proj2 (trigger_starts_or_is_dropped (attack_2 (OrcSprite_init (1 # 2))))
             eq_refl)).
Defined.

(** ** Locomotion selection *)

(** What [update] leaves untouched whatever branch it takes: the sequence
    table, the movement intent, and the clock as the inherited update
    advanced it. *)
Lemma update_frame (delta_time : Q) (s : OrcSprite) :
  let s' := sprite_of (update delta_time s) in
  texture_sets (super s') = texture_sets (super s)
  /\ change_x (super s') = change_x (super s)
  /\ change_y (super s') = change_y (super s)
  /\ texture_clock (super s') = texture_clock (super s) + Qmax 0 delta_time.
Proof.
  unfold update. cbn.
  repeat match goal with
         | |- context [if ?b then _ else _] => destruct b
         | |- context [match ?o with Some _ => _ | None => _ end] => destruct o
         end; cbn; repeat split.
Qed.

(** C6.  With no action in progress, [update] returns normally and chooses
    the key from the intent alone: left of zero faces Left and walks, right
    of zero faces Right and walks, vertical intent alone walks in the
    direction already faced, and no intent idles in the direction already
    faced.  So the key is an idle key exactly when both axes are zero, and
    the direction changes only when the horizontal intent is not zero. *)
Theorem locomotion_selection (delta_time : Q) (s : OrcSprite) :
  attack_animation s = 0%Z ->
  exists s' : OrcSprite,
    update delta_time s = Returned s'
    /\ attack_animation s' = 0%Z
    /\ (change_x (super s) < 0 ->
          is_facing_right s' = false
          /\ animation_state (super s') = code_of Walk Left)
    /\ (0 < change_x (super s) ->
          is_facing_right s' = true
          /\ animation_state (super s') = code_of Walk Right)
    /\ (change_x (super s) == 0 -> ~ change_y (super s) == 0 ->
          is_facing_right s' = is_facing_right s
          /\ animation_state (super s')
             = code_of Walk (facing (is_facing_right s)))
    /\ (change_x (super s) == 0 -> change_y (super s) == 0 ->
          is_facing_right s' = is_facing_right s
          /\ animation_state (super s')
             = code_of Idle (facing (is_facing_right s)))
    /\ (animation_state (super s') = code_of Idle (facing (is_facing_right s'))
        <-> change_x (super s) == 0 /\ change_y (super s) == 0)
    /\ (animation_state (super s') = code_of Walk (facing (is_facing_right s'))
        <-> ~ (change_x (super s) == 0 /\ change_y (super s) == 0))
    /\ (is_facing_right s' <> is_facing_right s -> ~ change_x (super s) == 0).
Proof.
  intros H0. unfold update. cbn. rewrite H0. cbn.
  case_Qlt (change_x (super s)) 0; [|case_Qlt 0 (change_x (super s));
    [|case_Qne (change_y (super s)) 0]];
    destruct (is_facing_right s) eqn:Ef;
    (eexists; split; [reflexivity|]); cbn; rewrite ?Ef;
    repeat split; intros; try lra; try discriminate; try tauto; try congruence.
Qed.

Lemma locomotion_selection_witness :
  attack_animation (with_super (set_change (-5) 0) (OrcSprite_init (1 # 2))) = 0%Z
  /\ exists s' : OrcSprite,
       update (1 # 60) (with_super (set_change (-5) 0) (OrcSprite_init (1 # 2)))
       = Returned s'
       /\ is_facing_right s' = false
       /\ animation_state (super s') = ANIMATION_STATE_WALK_LEFT.
Proof.
  split; [reflexivity|].
  destruct (locomotion_selection (1 # 60)
              (with_super (set_change (-5) 0) (OrcSprite_init (1 # 2))) eq_refl)
    as [s' [Hret [_ [Hleft _]]]].
  exists s'. split; [exact Hret|]. apply Hleft. reflexivity.
Defined.

(** ** Movement intent from the key flags *)

(** C7.  Whatever the four flags are: two opposing flags pressed together
    give zero intent on their axis, and a flag pressed without its opposite
    gives intent of magnitude [player_speed] in its direction.  The flags and
    the speed themselves are not changed. *)
Theorem opposing_keys_cancel (w : AdventureGameWindow) :
  let w' := update_player_speed w in
  (left_pressed w = true -> right_pressed w = true -> player_change_x w' = 0%Z)
  /\ (up_pressed w = true -> down_pressed w = true -> player_change_y w' = 0%Z)
  /\ (left_pressed w = true -> right_pressed w = false ->
        player_change_x w' = (- player_speed w)%Z)
  /\ (right_pressed w = true -> left_pressed w = false ->
        player_change_x w' = player_speed w)
  /\ (up_pressed w = true -> down_pressed w = false ->
        player_change_y w' = player_speed w)
  /\ (down_pressed w = true -> up_pressed w = false ->
        player_change_y w' = (- player_speed w)%Z)
  /\ (left_pressed w = false -> right_pressed w = false -> player_change_x w' = 0%Z)
  /\ (up_pressed w = false -> down_pressed w = false -> player_change_y w' = 0%Z)
  /\ left_pressed w' = left_pressed w /\ right_pressed w' = right_pressed w
  /\ up_pressed w' = up_pressed w /\ down_pressed w' = down_pressed w
  /\ player_speed w' = player_speed w.
Proof.
  destruct w as [l r u d speed cx cy pp cp].
  unfold update_player_speed. cbn.
  destruct l, r, u, d; cbn; repeat split; intros; congruence.
Qed.

Lemma opposing_keys_cancel_witness :
  player_change_x
    (update_player_speed (mkWindow true true false true 5 5 5 (100, 950) (0, 0)))
  = 0%Z
  /\ player_change_y
    (update_player_speed (mkWindow true true false true 5 5 5 (100, 950) (0, 0)))
  = (-5)%Z.
Proof.
  pose proof (opposing_keys_cancel
                (mkWindow true true false true 5 5 5 (100, 950) (0, 0))) as H.
  cbv zeta in H.
  destruct H as [Hx [_ [_ [_ [_ [Hy _]]]]]].
  split; [apply Hx; reflexivity | apply Hy; reflexivity].
Defined.

(** ** State codes against the sequence table *)

(** C1.  The table [__init__] builds has eight sequences, at indices 0 to 7,
    and the code of attack 2 facing left is 8.  So an orc that has turned
    left and started attack 2 raises [IndexError] in its next [update], for
    every draw of the clock and every tick length; nothing is detected at
    construction.  The other three left codes are in range but select the row
    after their own: idle-left the walk frames, walk-left those of attack 1,
    attack-1-left those of attack 2. *)
Theorem attack_2_left_code_outside_table :
  In (code_of Attack_2 Left) state_codes
  /\ (forall u : Q,
        length (texture_sets (super (OrcSprite_init u))) = 8%nat
        /\ nth_error (texture_sets (super (OrcSprite_init u)))
                     (code_of Attack_2 Left) = None)
  /\ (forall u delta_time : Q,
        exists s : OrcSprite,
          run [Tick delta_time (-5) 0; Attack2] (OrcSprite_init u) = Returned s
          /\ animation_state (super s) = ANIMATION_STATE_ATTACK_2_LEFT
          /\ update delta_time s
             = IndexError (with_super (AnimatedSprite_update delta_time) s))
  /\ (forall u : Q,
        let sets := texture_sets (super (OrcSprite_init u)) in
        let flipped := flip_left_right SpriteSheet_open in
        nth_error sets (code_of Idle Left)
        = Some (load_100x100_textures flipped 1 8 true)
        /\ nth_error sets (code_of Walk Left)
           = Some (load_100x100_textures flipped 2 6 true)
        /\ nth_error sets (code_of Attack_1 Left)
           = Some (load_100x100_textures flipped 3 6 true)).
Proof.
  split; [|split; [|split]].
  - cbn. tauto.
  - intros u. split; reflexivity.
  - intros u delta_time. eexists. split; [reflexivity|]. split; reflexivity.
  - intros u. cbv zeta. repeat split.
Qed.

(** ** Completion of an action *)

(** A tick with no action in progress: the call returns, no action starts,
    and the key follows the intent of the tick. *)
Lemma tick_without_action (delta_time dx dy : Q) (s : OrcSprite) :
  (0 <? attack_animation s)%Z = false ->
  exists s' : OrcSprite,
    step (Tick delta_time dx dy) s = Returned s'
    /\ attack_animation s' = attack_animation s
    /\ texture_sets (super s') = texture_sets (super s)
    /\ (dx < 0 ->
          is_facing_right s' = false
          /\ animation_state (super s') = code_of Walk Left)
    /\ (0 < dx ->
          is_facing_right s' = true
          /\ animation_state (super s') = code_of Walk Right)
    /\ (dx == 0 -> ~ dy == 0 ->
          is_facing_right s' = is_facing_right s
          /\ animation_state (super s')
             = code_of Walk (facing (is_facing_right s)))
    /\ (dx == 0 -> dy == 0 ->
          is_facing_right s' = is_facing_right s
          /\ animation_state (super s')
             = code_of Idle (facing (is_facing_right s))).
Proof.
  intros H0. cbn. unfold update. cbn. rewrite H0.
  case_Qlt dx 0; [|case_Qlt 0 dx; [|case_Qne dy 0]];
    destruct (is_facing_right s) eqn:Ef;
    (eexists; split; [reflexivity|]); cbn; rewrite ?Ef;
    repeat split; intros; try lra; try discriminate; try tauto; try congruence.
Qed.

(** C2, as the code has it.  While an action is in progress and its sequence
    is in the table, [update] returns normally and, whatever the movement
    intent is, leaves the key and the direction alone.  If the clock has
    reached the nominal duration (frame count over 10) the action state goes
    back to 0 and nothing else happens on that tick: the key is still the
    attack key.  Locomotion is selected by the update after it: whatever
    intent that update finds, it returns with the walk or idle key the
    intent calls for.  If the clock has not reached the duration, only the
    clock has moved. *)
Theorem action_completion (delta_time : Q) (s : OrcSprite) (frames : list Texture) :
  (0 < attack_animation s)%Z ->
  nth_error (texture_sets (super s)) (animation_state (super s)) = Some frames ->
  exists s' : OrcSprite,
    update delta_time s = Returned s'
    /\ animation_state (super s') = animation_state (super s)
    /\ is_facing_right s' = is_facing_right s
    /\ texture_clock (super s') = texture_clock (super s) + Qmax 0 delta_time
    /\ (inject_Z (Z.of_nat (length frames)) / 10 <= texture_clock (super s')
        -> attack_animation s' = 0%Z
           /\ forall delta_time2 dx dy : Q,
              exists s2 : OrcSprite,
                update delta_time2 (with_super (set_change dx dy) s') = Returned s2
                /\ attack_animation s2 = 0%Z
                /\ (dx < 0 ->
                      is_facing_right s2 = false
                      /\ animation_state (super s2) = code_of Walk Left)
                /\ (0 < dx ->
                      is_facing_right s2 = true
                      /\ animation_state (super s2) = code_of Walk Right)
                /\ (dx == 0 -> ~ dy == 0 ->
                      is_facing_right s2 = is_facing_right s
                      /\ animation_state (super s2)
                         = code_of Walk (facing (is_facing_right s)))
                /\ (dx == 0 -> dy == 0 ->
                      is_facing_right s2 = is_facing_right s
                      /\ animation_state (super s2)
                         = code_of Idle (facing (is_facing_right s))))
    /\ (texture_clock (super s') < inject_Z (Z.of_nat (length frames)) / 10
        -> attack_animation s' = attack_animation s).
Proof.
  intros Hpos Hframes. apply Z.ltb_lt in Hpos.
  fold (animation_length_of frames).
  destruct (Qle_bool (animation_length_of frames)
                     (texture_clock (super s) + Qmax 0 delta_time)) eqn:E.
  - exists (set_attack_animation 0
              (with_super (AnimatedSprite_update delta_time) s)).
    split; [unfold update; cbn; rewrite Hpos, Hframes, E; reflexivity|].
    split; [reflexivity|]. split; [reflexivity|]. split; [reflexivity|]. split.
    + intros _. split; [reflexivity|]. intros delta_time2 dx dy.
      destruct (tick_without_action delta_time2 dx dy
                  (set_attack_animation 0
                     (with_super (AnimatedSprite_update delta_time) s)) eq_refl)
        as [s2 [Hstep [Ha [_ Hcases]]]].
      exists s2. split; [exact Hstep|]. split; [exact Ha | exact Hcases].
    + cbn. intros Hlt. apply Qle_bool_iff in E. lra.
  - exists (with_super (AnimatedSprite_update delta_time) s).
    split; [unfold update; cbn; rewrite Hpos, Hframes, E; reflexivity|].
    split; [reflexivity|]. split; [reflexivity|]. split; [reflexivity|]. split.
    + cbn. intros Hle. apply Qle_bool_iff in Hle. congruence.
    + intros _. reflexivity.
Qed.

Lemma action_completion_witness :
  (0 < attack_animation (attack_1 (OrcSprite_init (1 # 2))))%Z
  /\ exists s' s2 : OrcSprite,
       update 1 (with_super (set_change (-5) 0) (attack_1 (OrcSprite_init (1 # 2))))
       = Returned s'
       /\ animation_state (super s') = ANIMATION_STATE_ATTACK_1_RIGHT
       /\ attack_animation s' = 0%Z
       /\ update (1 # 60) (with_super (set_change (-5) 0) s') = Returned s2
       /\ animation_state (super s2) = ANIMATION_STATE_WALK_LEFT.
Proof.
  split; [reflexivity|].
  destruct (action_completion 1
              (with_super (set_change (-5) 0) (attack_1 (OrcSprite_init (1 # 2))))
              (load_100x100_textures SpriteSheet_open 2 6 false)
              eq_refl eq_refl)
    as [s' [Hret [Hkey [_ [Hclock [Hdone _]]]]]].
  assert (Hexp : inject_Z (Z.of_nat
                   (length (load_100x100_textures SpriteSheet_open 2 6 false))) / 10
                 <= texture_clock (super s')).
  { rewrite Hclock. vm_compute. discriminate. }
  destruct (Hdone Hexp) as [Hzero Hnext].
  destruct (Hnext (1 # 60) (-5) 0) as [s2 [Hret2 [_ [Hleft _]]]].
  exists s', s2. split; [exact Hret|]. split; [exact Hkey|].
  split; [exact Hzero|]. split; [exact Hret2|].
  apply Hleft. reflexivity.
Defined.

(** C2 as stated fails: an orc facing right starts attack 1, the intent turns
    to the left, and a tick of one whole time unit takes the clock past the
    duration 6/10.  The action state is reset, but the key on that tick is
    still attack-1-right and the orc still faces right: not the walk-left key
    the intent would select. *)
Lemma expiry_tick_keeps_attack_key :
  let s := with_super (set_change (-5) 0) (attack_1 (OrcSprite_init (1 # 2))) in
  let s' := sprite_of (update 1 s) in
  (0 < attack_animation s)%Z
  /\ nth_error (texture_sets (super s)) (animation_state (super s))
     = Some (load_100x100_textures SpriteSheet_open 2 6 false)
  /\ inject_Z (Z.of_nat 6) / 10 <= texture_clock (super s) + Qmax 0 1
  /\ change_x (super s) < 0
  /\ update 1 s = Returned s'
  /\ attack_animation s' = 0%Z
  /\ animation_state (super s') = code_of Attack_1 Right
  /\ animation_state (super s') <> code_of Walk Left
  /\ is_facing_right s' = true.
Proof.
  cbv zeta. repeat split; try reflexivity; try discriminate.
Qed.

(** ** The clock at a change of key *)

(** C3, as the code has it.  An attack call that changes the key leaves the
    clock at 0.  [update] never resets the clock: whether it changes the key
    or not, and whether it returns or raises, the clock afterwards is what
    the inherited update left, the clock before plus the time of the tick. *)
Theorem clock_reset_on_action_start_only (s : OrcSprite) :
  (animation_state (super (attack_1 s)) <> animation_state (super s) ->
     texture_clock (super (attack_1 s)) = 0)
  /\ (animation_state (super (attack_2 s)) <> animation_state (super s) ->
     texture_clock (super (attack_2 s)) = 0)
  /\ (forall delta_time : Q,
        texture_clock (super (sprite_of (update delta_time s)))
        = texture_clock (AnimatedSprite_update delta_time (super s))
        /\ texture_clock (super (sprite_of (update delta_time s)))
           = texture_clock (super s) + Qmax 0 delta_time).
Proof.
  split; [|split].
  - unfold attack_1. destruct (0 <? attack_animation s)%Z.
    + intros H. contradiction H. reflexivity.
    + intros _. cbn. destruct (is_facing_right s); reflexivity.
  - unfold attack_2. destruct (0 <? attack_animation s)%Z.
    + intros H. contradiction H. reflexivity.
    + intros _. cbn. destruct (is_facing_right s); reflexivity.
  - intros delta_time. split; apply (update_frame delta_time s).
Qed.

Lemma clock_reset_on_action_start_only_witness :
  animation_state (super (attack_1 (OrcSprite_init (1 # 2))))
  <> animation_state (super (OrcSprite_init (1 # 2)))
  /\ texture_clock (super (attack_1 (OrcSprite_init (1 # 2)))) = 0.
Proof.
  assert (H : animation_state (super (attack_1 (OrcSprite_init (1 # 2))))
              <> animation_state (super (OrcSprite_init (1 # 2)))).
  { cbn. discriminate. }
  split; [exact H|].
  exact (proj1 (clock_reset_on_action_start_only (OrcSprite_init (1 # 2))) H).
Defined.

(** C3 as stated fails: a fresh orc whose clock was drawn as 1/2 is given
    intent to the left; the tick changes the key from idle-right to walk-left
    and the clock reads 1/2 + 1/60, not 0. *)
Lemma walk_start_keeps_clock_running :
  let s := with_super (set_change (-5) 0) (OrcSprite_init (1 # 2)) in
  let s' := sprite_of (update (1 # 60) s) in
  update (1 # 60) s = Returned s'
  /\ animation_state (super s) = code_of Idle Right
  /\ animation_state (super s') = code_of Walk Left
  /\ animation_state (super s') <> animation_state (super s)
  /\ texture_clock (super s') == 31 # 60
  /\ ~ texture_clock (super s') == 0.
Proof.
  cbv zeta. repeat split; try reflexivity; try discriminate.
Qed.

(** ** Atomicity of an action *)

(** One event while an action is in progress and not found expired: the key,
    the direction, the action state and the table are as before, and the
    call returns normally whenever the key is in the table. *)
Lemma step_in_progress (e : event) (s : OrcSprite) :
  (0 < attack_animation s)%Z ->
  match e with
  | Tick delta_time _ _ => expiring delta_time s = false
  | Attack1 | Attack2 => True
  end ->
  let s' := sprite_of (step e s) in
  animation_state (super s') = animation_state (super s)
  /\ is_facing_right s' = is_facing_right s
  /\ attack_animation s' = attack_animation s
  /\ texture_sets (super s') = texture_sets (super s)
  /\ (nth_error (texture_sets (super s)) (animation_state (super s)) <> None ->
      step e s = Returned s').
Proof.
  intros Hpos Hexp. pose proof Hpos as Hb. apply Z.ltb_lt in Hb.
  destruct e as [delta_time dx dy | | ]; cbn.
  - unfold expiring in Hexp. unfold update. cbn. rewrite Hb.
    destruct (nth_error (texture_sets (super s)) (animation_state (super s)))
      as [frames|] eqn:Hframes.
    + rewrite Hexp. cbn. repeat split.
    + cbn. repeat split. intros H. contradiction H. reflexivity.
  - unfold attack_1. rewrite Hb. repeat split.
  - unfold attack_2. rewrite Hb. repeat split.
Qed.

Lemma run_in_progress (evs : list event) :
  forall s : OrcSprite,
    (0 < attack_animation s)%Z ->
    unexpired evs s = true ->
    animation_state (super (sprite_of (run evs s))) = animation_state (super s)
    /\ is_facing_right (sprite_of (run evs s)) = is_facing_right s
    /\ attack_animation (sprite_of (run evs s)) = attack_animation s
    /\ (nth_error (texture_sets (super s)) (animation_state (super s)) <> None ->
        run evs s = Returned (sprite_of (run evs s))).
Proof.
  induction evs as [|e evs IH]; intros s Hpos Hun.
  - cbn. repeat split.
  - cbn in Hun. apply andb_true_iff in Hun. destruct Hun as [Hnow Hlater].
    assert (Hexp : match e with
                   | Tick delta_time _ _ => expiring delta_time s = false
                   | Attack1 | Attack2 => True
                   end).
    { destruct e; [apply negb_true_iff; exact Hnow | exact I | exact I]. }
    destruct (step_in_progress e s Hpos Hexp) as [Hk [Hf [Ha [Ht Hret]]]].
    cbn. destruct (step e s) as [s1|s1] eqn:Hstep; cbn in Hk, Hf, Ha, Ht, Hret.
    + assert (Hpos1 : (0 < attack_animation s1)%Z) by (rewrite Ha; exact Hpos).
      destruct (IH s1 Hpos1 Hlater) as [Hk' [Hf' [Ha' Hret']]].
      repeat split; try congruence.
      intros Hin. apply Hret'. rewrite Ht, Hk. exact Hin.
    + cbn. repeat split; assumption.
Qed.

(** C4.  From the start of an action (a trigger accepted with no action in
    progress, facing D) and through every run of ticks and further triggers
    in which no tick finds the clock at the nominal duration, the key stays
    that of the action in direction D, the direction stays D and the action
    stays in progress, whatever movement intent the ticks carry.  The run
    returns normally whenever the key is in the sequence table. *)
Theorem action_atomicity (s0 : OrcSprite) (evs : list event) :
  attack_animation s0 = 0%Z ->
  (unexpired evs (attack_1 s0) = true ->
     let s' := sprite_of (run evs (attack_1 s0)) in
     animation_state (super s') = code_of Attack_1 (facing (is_facing_right s0))
     /\ is_facing_right s' = is_facing_right s0
     /\ attack_animation s' = 1%Z
     /\ (nth_error (texture_sets (super s0))
                   (code_of Attack_1 (facing (is_facing_right s0))) <> None ->
         run evs (attack_1 s0) = Returned s'))
  /\
  (unexpired evs (attack_2 s0) = true ->
     let s' := sprite_of (run evs (attack_2 s0)) in
     animation_state (super s') = code_of Attack_2 (facing (is_facing_right s0))
     /\ is_facing_right s' = is_facing_right s0
     /\ attack_animation s' = 2%Z
     /\ (nth_error (texture_sets (super s0))
                   (code_of Attack_2 (facing (is_facing_right s0))) <> None ->
         run evs (attack_2 s0) = Returned s')).
Proof.
  intros H0.
  destruct (proj1 (trigger_started s0) H0)
    as [[A1 [C1 [F1 [K1 T1]]]] [A2 [C2 [F2 [K2 T2]]]]].
  split; intros Hun; cbv zeta.
  - destruct (run_in_progress evs (attack_1 s0)) as [Hk [Hf [Ha Hret]]];
      [rewrite A1; reflexivity | exact Hun |].
    rewrite Hk, Hf, Ha, K1, F1, A1. repeat split.
    intros Hin. apply Hret. rewrite T1, K1. exact Hin.
  - destruct (run_in_progress evs (attack_2 s0)) as [Hk [Hf [Ha Hret]]];
      [rewrite A2; reflexivity | exact Hun |].
    rewrite Hk, Hf, Ha, K2, F2, A2. repeat split.
    intros Hin. apply Hret. rewrite T2, K2. exact Hin.
Qed.

Lemma action_atomicity_witness :
  attack_animation (OrcSprite_init (1 # 2)) = 0%Z
  /\ unexpired [Tick (1 # 10) (-5) 0; Attack2; Tick (1 # 10) 0 5; Attack1;
                Tick (1 # 10) 5 0]
               (attack_1 (OrcSprite_init (1 # 2))) = true
  /\ animation_state
       (super (sprite_of
                 (run [Tick (1 # 10) (-5) 0; Attack2; Tick (1 # 10) 0 5; Attack1;
                       Tick (1 # 10) 5 0]
                      (attack_1 (OrcSprite_init (1 # 2))))))
     = ANIMATION_STATE_ATTACK_1_RIGHT.
Proof.
  split; [reflexivity|]. split; [vm_compute; reflexivity|].
  exact (proj1 (proj1 (action_atomicity (OrcSprite_init (1 # 2))
                         [Tick (1 # 10) (-5) 0; Attack2; Tick (1 # 10) 0 5;
                          Attack1; Tick (1 # 10) 5 0] eq_refl) eq_refl)).
Defined.

(** ** The camera: boundary constraint *)

Lemma boundary_values :
  HORIZONTAL_BOUNDARY == 400 /\ VERTICAL_BOUNDARY == 200.
Proof. split; reflexivity. Qed.

(** The three cases of the constraint on one axis. *)
Lemma constrain_axis_cases (lo hi camera player : Q) :
  lo <= hi ->
  (lo <= player - camera -> player - camera <= hi ->
     constrain_axis lo hi camera player = camera)
  /\ (hi < player - camera -> constrain_axis lo hi camera player = player - hi)
  /\ (player - camera < lo -> constrain_axis lo hi camera player = player - lo).
Proof.
  intros Hb. unfold constrain_axis.
  case_Qlt hi (player - camera); [|case_Qlt (player - camera) lo];
    repeat split; intros; try reflexivity; exfalso; lra.
Qed.

(** C8.  The boundary has half-width 400 and half-height 200.  A player whose
    offset from the camera lies inside it leaves the target at the camera
    position itself; an offset beyond an edge moves the target so that the
    player sits exactly on that edge; camera (0,0) with the player at (500,0)
    gives the target (100,0). *)
Theorem camera_dead_zone :
  (HORIZONTAL_BOUNDARY == 400 /\ VERTICAL_BOUNDARY == 200)
  /\ (forall camera player : Point2,
        - (400) <= fst player - fst camera -> fst player - fst camera <= 400 ->
        - (200) <= snd player - snd camera -> snd player - snd camera <= 200 ->
        constrain_boundary_xy camera CAMERA_BOUNDARY player = camera)
  /\ (forall camera player : Point2,
        let target := constrain_boundary_xy camera CAMERA_BOUNDARY player in
        (400 < fst player - fst camera -> fst player - fst target == 400)
        /\ (fst player - fst camera < - (400) -> fst player - fst target == - (400))
        /\ (200 < snd player - snd camera -> snd player - snd target == 200)
        /\ (snd player - snd camera < - (200) -> snd player - snd target == - (200)))
  /\ pt_eq (constrain_boundary_xy (0, 0) CAMERA_BOUNDARY (500, 0)) (100, 0).
Proof.
  destruct boundary_values as [HW HH].
  assert (HbW : - HORIZONTAL_BOUNDARY <= HORIZONTAL_BOUNDARY) by lra.
  assert (HbH : - VERTICAL_BOUNDARY <= VERTICAL_BOUNDARY) by lra.
  split; [split; assumption|]. split; [|split].
  - intros [cx cy] [px py]. cbn [fst snd]. intros Hx1 Hx2 Hy1 Hy2.
    unfold constrain_boundary_xy, CAMERA_BOUNDARY.
    cbn [fst snd rect_left rect_right rect_bottom rect_top].
    destruct (constrain_axis_cases _ _ cx px HbW) as [Hx _].
    destruct (constrain_axis_cases _ _ cy py HbH) as [Hy _].
    rewrite Hx, Hy by lra. reflexivity.
  - intros [cx cy] [px py]. cbv zeta.
    unfold constrain_boundary_xy, CAMERA_BOUNDARY.
    cbn [fst snd rect_left rect_right rect_bottom rect_top].
    destruct (constrain_axis_cases _ _ cx px HbW) as [_ [Hxr Hxl]].
    destruct (constrain_axis_cases _ _ cy py HbH) as [_ [Hyt Hyb]].
    repeat split; intros H.
    + rewrite Hxr by lra. lra.
    + rewrite Hxl by lra. lra.
    + rewrite Hyt by lra. lra.
    + rewrite Hyb by lra. lra.
  - split; reflexivity.
Qed.

Lemma camera_dead_zone_witness :
  (- (400) <= fst (350, 850) - fst (0, 1000)
   /\ fst (350, 850) - fst (0, 1000) <= 400
   /\ - (200) <= snd (350, 850) - snd (0, 1000)
   /\ snd (350, 850) - snd (0, 1000) <= 200)
  /\ constrain_boundary_xy (0, 1000) CAMERA_BOUNDARY (350, 850) = (0, 1000).
Proof.
  assert (H1 : - (400) <= fst (350, 850) - fst (0, 1000)) by (cbn; lra).
  assert (H2 : fst (350, 850) - fst (0, 1000) <= 400) by (cbn; lra).
  assert (H3 : - (200) <= snd (350, 850) - snd (0, 1000)) by (cbn; lra).
  assert (H4 : snd (350, 850) - snd (0, 1000) <= 200) by (cbn; lra).
  split; [repeat split; assumption|].
  exact (proj1 (proj2 camera_dead_zone) (0, 1000) (350, 850) H1 H2 H3 H4).
Defined.

(** ** The camera: smoothing *)






(** * Further properties of the code *)

Import Input OrcRuns.

(** ** What every run of an orc keeps *)

Lemma coherent_init (u : Q) : coherent (OrcSprite_init u).
Proof.
  split; [reflexivity|]. left. split; [reflexivity|]. exists Idle. reflexivity.
Qed.

Lemma coherent_attack_range (s : OrcSprite) :
  coherent s -> (0 <? attack_animation s)%Z = false -> attack_animation s = 0%Z.
Proof.
  intros [_ [[H _]|[[H _]|[H _]]]] Hb; rewrite H in *; try reflexivity;
    discriminate Hb.
Qed.

(** One event keeps the shape, whether the call returns or raises. *)
Lemma coherent_step (e : event) (s : OrcSprite) :
  coherent s -> coherent (sprite_of (step e s)).
Proof.
  intros Hs. pose proof (coherent_attack_range s Hs) as Hzero.
  destruct Hs as [Ht Hshape].
  destruct e as [delta_time dx dy | | ]; cbn.
  - unfold update. cbn.
    destruct (0 <? attack_animation s)%Z eqn:Hb.
    + assert (Hkeep : coherent
                (mkOrc (mkAnimated (texture_sets (super s))
                          (animation_state (super s))
                          (texture_clock (super s) + Qmax 0 delta_time) dx dy)
                       (is_facing_right s) (attack_animation s))).
      { split; [exact Ht | exact Hshape]. }
      destruct (nth_error (texture_sets (super s)) (animation_state (super s)))
        as [frames|]; [|exact Hkeep].
      destruct (Qle_bool (animation_length_of frames)
                  (texture_clock (super s) + Qmax 0 delta_time)); [|exact Hkeep].
      cbn. split; [exact Ht|]. left. split; [reflexivity|]. cbn.
      destruct Hshape as [[_ Hm]|[[_ Hk]|[_ Hk]]];
        [exact Hm | exists Attack_1; exact Hk | exists Attack_2; exact Hk].
    + destruct (Qlt_bool dx 0); [|destruct (Qlt_bool 0 dx);
        [|destruct (Qne_bool dy 0)]];
        cbn; destruct (is_facing_right s) eqn:Ef; cbn;
        (split; [exact Ht|]); left; (split; [cbn; apply Hzero; reflexivity|]);
        cbn; rewrite ?Ef;
        first [ exists Walk; reflexivity | exists Idle; reflexivity ].
  - unfold attack_1. destruct (0 <? attack_animation s)%Z eqn:Hb.
    + split; assumption.
    + cbn. destruct (is_facing_right s) eqn:Ef; cbn;
        (split; [exact Ht|]); right; left; cbn; rewrite ?Ef; split; reflexivity.
  - unfold attack_2. destruct (0 <? attack_animation s)%Z eqn:Hb.
    + split; assumption.
    + cbn. destruct (is_facing_right s) eqn:Ef; cbn;
        (split; [exact Ht|]); right; right; cbn; rewrite ?Ef; split; reflexivity.
Qed.

Lemma coherent_run (evs : list event) :
  forall s : OrcSprite, coherent s -> coherent (sprite_of (run evs s)).
Proof.
  induction evs as [|e evs IH]; intros s Hs; [exact Hs|].
  cbn. pose proof (coherent_step e s Hs) as Hstep.
  destruct (step e s) as [s1|s1]; [apply IH|]; exact Hstep.
Qed.

(** X1.  Whatever the draw of the clock and whatever ticks and triggers
    follow, the sprite a run of a fresh orc leaves behind (returned or as it
    stood at an [IndexError]) still holds the table built at construction,
    has action state 0, 1 or 2, shows one of the eight state codes, and its
    code faces the way [is_facing_right] says; while an attack is in progress
    the code is that attack's. *)
Theorem fresh_orc_run_coherent (u : Q) (evs : list event) :
  let s := sprite_of (run evs (OrcSprite_init u)) in
  texture_sets (super s) = texture_sets (super (OrcSprite_init u))
  /\ (attack_animation s = 0 \/ attack_animation s = 1 \/ attack_animation s = 2)%Z
  /\ In (animation_state (super s)) state_codes
  /\ (exists m : Motion,
        animation_state (super s) = code_of m (facing (is_facing_right s)))
  /\ (attack_animation s = 1%Z ->
        animation_state (super s) = code_of Attack_1 (facing (is_facing_right s)))
  /\ (attack_animation s = 2%Z ->
        animation_state (super s) = code_of Attack_2 (facing (is_facing_right s))).
Proof.
  cbv zeta.
  destruct (coherent_run evs (OrcSprite_init u) (coherent_init u)) as [Ht Hshape].
  set (s := sprite_of (run evs (OrcSprite_init u))) in *.
  assert (Hm : exists m : Motion,
             animation_state (super s) = code_of m (facing (is_facing_right s))).
  { destruct Hshape as [[_ Hm]|[[_ Hk]|[_ Hk]]];
      [exact Hm | exists Attack_1; exact Hk | exists Attack_2; exact Hk]. }
  split; [exact Ht|]. split; [|split; [|split; [exact Hm|split]]].
  - destruct Hshape as [[H _]|[[H _]|[H _]]]; tauto.
  - destruct Hm as [m Hm]. rewrite Hm.
    destruct m, (is_facing_right s); cbn; tauto.
  - intros H1. destruct Hshape as [[H _]|[[_ Hk]|[H _]]];
      [rewrite H in H1; discriminate | exact Hk | rewrite H in H1; discriminate].
  - intros H2. destruct Hshape as [[H _]|[[H _]|[_ Hk]]];
      [rewrite H in H2; discriminate | rewrite H in H2; discriminate | exact Hk].
Qed.

(** ** When a run raises, and when it cannot *)

(** A call can only raise from the one state whose code is outside the
    table: attack 2 in progress, facing left. *)
Lemma step_raises_only_at_attack_2_left (e : event) (s s' : OrcSprite) :
  coherent s -> step e s = IndexError s' ->
  attack_animation s = 2%Z /\ is_facing_right s = false
  /\ animation_state (super s') = ANIMATION_STATE_ATTACK_2_LEFT
  /\ is_facing_right s' = false /\ attack_animation s' = 2%Z.
Proof.
  intros [Ht Hshape] Hstep.
  destruct e as [delta_time dx dy | | ]; cbn in Hstep; [|discriminate|discriminate].
  unfold update in Hstep. cbn in Hstep. rewrite Ht in Hstep.
  destruct (is_facing_right s) eqn:Ef;
    destruct Hshape as [[Ha _]|[[Ha Hk]|[Ha Hk]]];
    rewrite Ha in Hstep; cbn in Hstep; try rewrite Hk in Hstep; cbn in Hstep;
    repeat match type of Hstep with
           | context [if ?b then _ else _] => destruct b
           end; try discriminate Hstep.
  injection Hstep as <-. cbn. rewrite Hk, Ef, Ha. repeat split.
Qed.

Lemma step_returns (e : event) (s : OrcSprite) :
  coherent s ->
  attack_animation s <> 2%Z \/ is_facing_right s = true ->
  exists s1 : OrcSprite, step e s = Returned s1.
Proof.
  intros Hs Hsafe. destruct (step e s) as [s1|s1] eqn:Hstep; [eauto|].
  destruct (step_raises_only_at_attack_2_left e s s1 Hs Hstep) as [Ha [Hf _]].
  destruct Hsafe as [Hsafe|Hsafe]; [contradiction | congruence].
Qed.

Lemma step_keeps_off_attack_2 (e : event) (s : OrcSprite) :
  is_attack_2 e = false -> attack_animation s <> 2%Z ->
  attack_animation (sprite_of (step e s)) <> 2%Z.
Proof.
  intros He Hs. destruct e as [delta_time dx dy | | ]; cbn; [| |discriminate He].
  - unfold update. cbn.
    repeat match goal with
           | |- context [if ?b then _ else _] => destruct b
           | |- context [match ?o with Some _ => _ | None => _ end] => destruct o
           end; cbn; try exact Hs; discriminate.
  - unfold attack_1. destruct (0 <? attack_animation s)%Z; [exact Hs|].
    cbn. destruct (is_facing_right s); cbn; discriminate.
Qed.

Lemma step_keeps_facing_right (e : event) (s : OrcSprite) :
  heads_left e = false -> is_facing_right s = true ->
  is_facing_right (sprite_of (step e s)) = true.
Proof.
  intros He Hs. destruct e as [delta_time dx dy | | ]; cbn.
  - cbn in He. unfold update. cbn. rewrite He, ?Hs.
    repeat match goal with
           | |- context [if ?b then _ else _] => destruct b
           | |- context [match ?o with Some _ => _ | None => _ end] => destruct o
           end; cbn; rewrite ?Hs; reflexivity.
  - unfold attack_1. destruct (0 <? attack_animation s)%Z; [exact Hs|].
    cbn. rewrite Hs. exact Hs.
  - unfold attack_2. destruct (0 <? attack_animation s)%Z; [exact Hs|].
    cbn. rewrite Hs. exact Hs.
Qed.

Lemma run_raises_only_at_attack_2_left (evs : list event) :
  forall s s' : OrcSprite,
    coherent s -> run evs s = IndexError s' ->
    animation_state (super s') = ANIMATION_STATE_ATTACK_2_LEFT
    /\ is_facing_right s' = false /\ attack_animation s' = 2%Z.
Proof.
  induction evs as [|e evs IH]; intros s s' Hs Hrun; [discriminate Hrun|].
  cbn in Hrun. pose proof (coherent_step e s Hs) as Hs1.
  destruct (step e s) as [s1|s1] eqn:Hstep.
  - exact (IH s1 s' Hs1 Hrun).
  - injection Hrun as <-.
    destruct (step_raises_only_at_attack_2_left e s s1 Hs Hstep)
      as [_ [_ [Hk [Hf Ha]]]].
    repeat split; assumption.
Qed.

Lemma run_returns_without_attack_2 (evs : list event) :
  forall s : OrcSprite,
    coherent s -> attack_animation s <> 2%Z ->
    forallb (fun e => negb (is_attack_2 e)) evs = true ->
    exists s' : OrcSprite, run evs s = Returned s'.
Proof.
  induction evs as [|e evs IH]; intros s Hs Ha Hall; [cbn; eauto|].
  cbn in Hall. apply andb_true_iff in Hall. destruct Hall as [He Hall].
  apply negb_true_iff in He.
  pose proof (coherent_step e s Hs) as Hs1.
  pose proof (step_keeps_off_attack_2 e s He Ha) as Ha1.
  destruct (step_returns e s Hs (or_introl Ha)) as [s1 Hstep].
  cbn. rewrite Hstep in *. exact (IH s1 Hs1 Ha1 Hall).
Qed.

Lemma run_returns_without_turning_left (evs : list event) :
  forall s : OrcSprite,
    coherent s -> is_facing_right s = true ->
    forallb (fun e => negb (heads_left e)) evs = true ->
    exists s' : OrcSprite, run evs s = Returned s'.
Proof.
  induction evs as [|e evs IH]; intros s Hs Hf Hall; [cbn; eauto|].
  cbn in Hall. apply andb_true_iff in Hall. destruct Hall as [He Hall].
  apply negb_true_iff in He.
  pose proof (coherent_step e s Hs) as Hs1.
  pose proof (step_keeps_facing_right e s He Hf) as Hf1.
  destruct (step_returns e s Hs (or_intror Hf)) as [s1 Hstep].
  cbn. rewrite Hstep in *. exact (IH s1 Hs1 Hf1 Hall).
Qed.

(** X2.  A run of a fresh orc that raises [IndexError] raised it in exactly
    one situation: attack 2 in progress, facing left, with the state code 8
    that the table does not have. *)
Theorem fresh_orc_raises_only_at_attack_2_left
    (u : Q) (evs : list event) (s : OrcSprite) :
  run evs (OrcSprite_init u) = IndexError s ->
  animation_state (super s) = ANIMATION_STATE_ATTACK_2_LEFT
  /\ is_facing_right s = false
  /\ attack_animation s = 2%Z
  /\ nth_error (texture_sets (super s)) (animation_state (super s)) = None.
Proof.
  intros Hrun.
  destruct (run_raises_only_at_attack_2_left evs _ _ (coherent_init u) Hrun)
    as [Hk [Hf Ha]].
  repeat split; try assumption.
  pose proof (coherent_run evs _ (coherent_init u)) as [Ht _].
  rewrite Hrun in Ht. cbn in Ht. rewrite Ht, Hk. reflexivity.
Qed.

Lemma fresh_orc_raises_only_at_attack_2_left_witness :
  exists s : OrcSprite,
    run [Tick (1 # 60) (-5) 0; Attack2; Tick (1 # 60) 0 0] (OrcSprite_init (1 # 2))
    = IndexError s
    /\ animation_state (super s) = ANIMATION_STATE_ATTACK_2_LEFT
    /\ attack_animation s = 2%Z.
Proof.
  eexists. split; [reflexivity|].
  pose proof (fresh_orc_raises_only_at_attack_2_left (1 # 2)
                [Tick (1 # 60) (-5) 0; Attack2; Tick (1 # 60) 0 0] _ eq_refl)
    as [Hk [_ [Ha _]]].
  split; [exact Hk | exact Ha].
Defined.

(** X3.  A run of a fresh orc returns normally from every call if it never
    triggers attack 2, or if none of its ticks carries intent to the left. *)
Theorem fresh_orc_run_returns (u : Q) (evs : list event) :
  forallb (fun e => negb (is_attack_2 e)) evs = true
  \/ forallb (fun e => negb (heads_left e)) evs = true ->
  exists s : OrcSprite, run evs (OrcSprite_init u) = Returned s.
Proof.
  intros [Hall|Hall].
  - apply run_returns_without_attack_2;
      [apply coherent_init | discriminate | exact Hall].
  - apply run_returns_without_turning_left;
      [apply coherent_init | reflexivity | exact Hall].
Qed.

Lemma fresh_orc_run_returns_witness :
  forallb (fun e => negb (is_attack_2 e))
          [Tick (1 # 60) (-5) 0; Attack1; Tick 1 0 0; Tick (1 # 60) 0 5] = true
  /\ exists s : OrcSprite,
       run [Tick (1 # 60) (-5) 0; Attack1; Tick 1 0 0; Tick (1 # 60) 0 5]
           (OrcSprite_init (1 # 2)) = Returned s.
Proof.
  split; [reflexivity|].
  exact (fresh_orc_run_returns (1 # 2)
           [Tick (1 # 60) (-5) 0; Attack1; Tick 1 0 0; Tick (1 # 60) 0 5]
           (or_introl eq_refl)).
Defined.

(** ** How an attack ends *)

Lemma ticks_without_action (evs : list event) :
  forall s : OrcSprite,
    (0 <? attack_animation s)%Z = false ->
    forallb is_tick evs = true ->
    exists s' : OrcSprite,
      run evs s = Returned s' /\ attack_animation s' = attack_animation s.
Proof.
  induction evs as [|e evs IH]; intros s H0 Hall; [cbn; eauto|].
  cbn in Hall. apply andb_true_iff in Hall. destruct Hall as [He Hall].
  destruct e as [delta_time dx dy | | ]; try discriminate He.
  destruct (tick_without_action delta_time dx dy s H0) as [s1 [Hstep [Ha _]]].
  change (run (Tick delta_time dx dy :: evs) s)
    with (match step (Tick delta_time dx dy) s with
          | Returned s' => run evs s'
          | IndexError s' => IndexError s'
          end).
  rewrite Hstep.
  destruct (IH s1) as [s' [Hrun Ha']]; [rewrite Ha; exact H0 | exact Hall |].
  exists s'. split; [exact Hrun | congruence].
Qed.

(** The clock never runs backwards over a run of ticks. *)
Lemma ticks_clock_monotone (evs : list event) :
  forall s : OrcSprite,
    forallb is_tick evs = true ->
    texture_clock (super s) <= texture_clock (super (sprite_of (run evs s))).
Proof.
  induction evs as [|e evs IH]; intros s Hall; [cbn; lra|].
  cbn in Hall. apply andb_true_iff in Hall. destruct Hall as [He Hall].
  destruct e as [delta_time dx dy | | ]; try discriminate He.
  change (run (Tick delta_time dx dy :: evs) s)
    with (match step (Tick delta_time dx dy) s with
          | Returned s' => run evs s'
          | IndexError s' => IndexError s'
          end).
  destruct (update_frame delta_time (with_super (set_change dx dy) s))
    as [_ [_ [_ Hclock]]].
  change (update delta_time (with_super (set_change dx dy) s))
    with (step (Tick delta_time dx dy) s) in Hclock.
  cbn [with_super super set_change texture_clock] in Hclock.
  pose proof (Q.le_max_l 0 delta_time) as Hmax.
  destruct (step (Tick delta_time dx dy) s) as [s1|s1]; cbn [sprite_of] in *.
  - specialize (IH s1 Hall). rewrite Hclock in IH. lra.
  - rewrite Hclock. lra.
Qed.

(** X4.  After any run of ticks that began during an attack whose sequence
    is in the table, every call has returned, and the attack is over exactly
    when the clock the run leaves behind reads at least the nominal duration:
    the clock alone ends an attack, whatever intent the ticks carry and
    however the time is cut into ticks. *)
Theorem attack_ends_by_the_clock
    (evs : list event) (s : OrcSprite) (frames : list Texture) :
  (0 < attack_animation s)%Z ->
  nth_error (texture_sets (super s)) (animation_state (super s)) = Some frames ->
  forallb is_tick evs = true ->
  evs <> [] ->
  exists s' : OrcSprite,
    run evs s = Returned s'
    /\ (attack_animation s' = 0%Z
        <-> animation_length_of frames <= texture_clock (super s'))
    /\ (attack_animation s' = 0%Z \/ attack_animation s' = attack_animation s).
Proof.
  revert s. induction evs as [|e evs IH]; intros s Hpos Hframes Hall Hne;
    [contradiction Hne; reflexivity|].
  cbn in Hall. apply andb_true_iff in Hall. destruct Hall as [He Hall].
  destruct e as [delta_time dx dy | | ]; try discriminate He.
  pose proof Hpos as Hb. apply Z.ltb_lt in Hb.
  change (run (Tick delta_time dx dy :: evs) s)
    with (match step (Tick delta_time dx dy) s with
          | Returned s' => run evs s'
          | IndexError s' => IndexError s'
          end).
  cbn [step]. unfold update. cbn. rewrite Hb, Hframes.
  destruct (Qle_bool (animation_length_of frames)
              (texture_clock (super s) + Qmax 0 delta_time)) eqn:E.
  - apply Qle_bool_iff in E.
    destruct (ticks_without_action evs
                (set_attack_animation 0
                   (with_super (AnimatedSprite_update delta_time)
                      (with_super (set_change dx dy) s))))
      as [s' [Hrun Ha]]; [reflexivity | exact Hall |].
    pose proof (ticks_clock_monotone evs
                  (set_attack_animation 0
                     (with_super (AnimatedSprite_update delta_time)
                        (with_super (set_change dx dy) s))) Hall) as Hmono.
    rewrite Hrun in Hmono. cbn in Hmono.
    exists s'. split; [exact Hrun|]. cbn in Ha. split; [|left; exact Ha].
    split; [intros _; lra | intros _; exact Ha].
  - assert (Hlt : texture_clock (super s) + Qmax 0 delta_time
                  < animation_length_of frames).
    { apply Qnot_le_lt. intros Hle. apply Qle_bool_iff in Hle. congruence. }
    destruct evs as [|e' evs'].
    + eexists. split; [reflexivity|]. cbn. split; [|right; reflexivity].
      split; [intros H0; rewrite H0 in Hpos; discriminate Hpos | intros Hle; lra].
    + apply (IH (with_super (AnimatedSprite_update delta_time)
                   (with_super (set_change dx dy) s)));
        try assumption; discriminate.
Qed.

Lemma attack_ends_by_the_clock_witness :
  (0 < attack_animation (attack_1 (OrcSprite_init (1 # 2))))%Z
  /\ exists s' : OrcSprite,
       run [Tick (1 # 4) 5 0; Tick (1 # 4) 0 0; Tick (1 # 4) (-5) 0]
           (attack_1 (OrcSprite_init (1 # 2))) = Returned s'
       /\ attack_animation s' = 0%Z.
Proof.
  split; [reflexivity|].
  destruct (attack_ends_by_the_clock
              [Tick (1 # 4) 5 0; Tick (1 # 4) 0 0; Tick (1 # 4) (-5) 0]
              (attack_1 (OrcSprite_init (1 # 2)))
              (load_100x100_textures SpriteSheet_open 2 6 false))
    as [s' [Hrun [Hiff _]]];
    [reflexivity | reflexivity | reflexivity | discriminate |].
  exists s'. split; [exact Hrun|].
  apply Hiff.
  assert (Hs : Returned s'
               = run [Tick (1 # 4) 5 0; Tick (1 # 4) 0 0; Tick (1 # 4) (-5) 0]
                     (attack_1 (OrcSprite_init (1 # 2)))) by (symmetry; exact Hrun).
  vm_compute in Hs. injection Hs as ->. vm_compute. discriminate.
Defined.

(** X5.  The tick that finds an attack expired only resets the action state;
    the key goes back to locomotion on the tick after it, chosen from that
    tick's intent and the direction the attack was made in.  So an attack
    holds its key for one update longer than its clock. *)
Theorem attack_gives_way_on_the_next_tick
    (s : OrcSprite) (frames : list Texture)
    (delta_time1 dx1 dy1 delta_time2 dx2 dy2 : Q) :
  (0 < attack_animation s)%Z ->
  nth_error (texture_sets (super s)) (animation_state (super s)) = Some frames ->
  animation_length_of frames <= texture_clock (super s) + Qmax 0 delta_time1 ->
  exists s1 s2 : OrcSprite,
    step (Tick delta_time1 dx1 dy1) s = Returned s1
    /\ animation_state (super s1) = animation_state (super s)
    /\ attack_animation s1 = 0%Z
    /\ run [Tick delta_time1 dx1 dy1; Tick delta_time2 dx2 dy2] s = Returned s2
    /\ attack_animation s2 = 0%Z
    /\ (dx2 < 0 ->
          is_facing_right s2 = false
          /\ animation_state (super s2) = code_of Walk Left)
    /\ (0 < dx2 ->
          is_facing_right s2 = true
          /\ animation_state (super s2) = code_of Walk Right)
    /\ (dx2 == 0 -> ~ dy2 == 0 ->
          is_facing_right s2 = is_facing_right s
          /\ animation_state (super s2)
             = code_of Walk (facing (is_facing_right s)))
    /\ (dx2 == 0 -> dy2 == 0 ->
          is_facing_right s2 = is_facing_right s
          /\ animation_state (super s2)
             = code_of Idle (facing (is_facing_right s))).
Proof.
  intros Hpos Hframes Htime. apply Z.ltb_lt in Hpos.
  apply Qle_bool_iff in Htime.
  assert (Hstep : step (Tick delta_time1 dx1 dy1) s
                  = Returned (set_attack_animation 0
                                (with_super (AnimatedSprite_update delta_time1)
                                   (with_super (set_change dx1 dy1) s)))).
  { cbn. unfold update. cbn. rewrite Hpos, Hframes, Htime. reflexivity. }
  destruct (tick_without_action delta_time2 dx2 dy2
              (set_attack_animation 0
                 (with_super (AnimatedSprite_update delta_time1)
                    (with_super (set_change dx1 dy1) s))) eq_refl)
    as [s2 [Hstep2 [Ha [_ Hcases]]]].
  eexists. exists s2. split; [exact Hstep|]. split; [reflexivity|].
  split; [reflexivity|]. split.
  - change (run [Tick delta_time1 dx1 dy1; Tick delta_time2 dx2 dy2] s)
      with (match step (Tick delta_time1 dx1 dy1) s with
            | Returned s' => run [Tick delta_time2 dx2 dy2] s'
            | IndexError s' => IndexError s'
            end).
    rewrite Hstep.
    change (run [Tick delta_time2 dx2 dy2]
              (set_attack_animation 0
                 (with_super (AnimatedSprite_update delta_time1)
                    (with_super (set_change dx1 dy1) s))))
      with (match step (Tick delta_time2 dx2 dy2)
                    (set_attack_animation 0
                       (with_super (AnimatedSprite_update delta_time1)
                          (with_super (set_change dx1 dy1) s))) with
            | Returned s' => Returned s'
            | IndexError s' => IndexError s'
            end).
    rewrite Hstep2. reflexivity.
  - split; [exact Ha | exact Hcases].
Qed.

Lemma attack_gives_way_on_the_next_tick_witness :
  (0 < attack_animation (attack_1 (OrcSprite_init (1 # 2))))%Z
  /\ exists s2 : OrcSprite,
       run [Tick 1 0 0; Tick (1 # 60) 0 0] (attack_1 (OrcSprite_init (1 # 2)))
       = Returned s2
       /\ animation_state (super s2) = ANIMATION_STATE_IDLE_RIGHT.
Proof.
  split; [reflexivity|].
  assert (Htime :
    animation_length_of (load_100x100_textures SpriteSheet_open 2 6 false)
    <= texture_clock (super (attack_1 (OrcSprite_init (1 # 2)))) + Qmax 0 1).
  { vm_compute. discriminate. }
  destruct (attack_gives_way_on_the_next_tick
              (attack_1 (OrcSprite_init (1 # 2)))
              (load_100x100_textures SpriteSheet_open 2 6 false)
              1 0 0 (1 # 60) 0 0 eq_refl eq_refl Htime)
    as [s1 [s2 [_ [_ [_ [Hrun [_ [_ [_ [_ Hidle]]]]]]]]]].
  exists s2. split; [exact Hrun|].
  apply Hidle; reflexivity.
Defined.

(** ** Triggers between two ticks *)

Lemma triggers_dropped_during_action (evs : list event) :
  forall s : OrcSprite,
    (0 < attack_animation s)%Z ->
    forallb (fun e => negb (is_tick e)) evs = true ->
    run evs s = Returned s.
Proof.
  induction evs as [|e evs IH]; intros s Hpos Hall; [reflexivity|].
  cbn in Hall. apply andb_true_iff in Hall. destruct Hall as [He Hall].
  pose proof Hpos as Hb. apply Z.ltb_lt in Hb.
  destruct e as [delta_time dx dy | | ]; [discriminate He | |]; cbn.
  - unfold attack_1. rewrite Hb. apply IH; assumption.
  - unfold attack_2. rewrite Hb. apply IH; assumption.
Qed.

(** X6.  Of any burst of triggers between two ticks only the first counts:
    after it the sprite is as that one attack call left it, whatever the
    state before and however many attacks of either kind follow. *)
Theorem first_trigger_wins (s : OrcSprite) (evs : list event) :
  forallb (fun e => negb (is_tick e)) evs = true ->
  run (Attack1 :: evs) s = Returned (attack_1 s)
  /\ run (Attack2 :: evs) s = Returned (attack_2 s).
Proof.
  intros Hall. split; cbn.
  - apply triggers_dropped_during_action; [|exact Hall].
    unfold attack_1. destruct (0 <? attack_animation s)%Z eqn:Hb.
    + apply Z.ltb_lt. exact Hb.
    + cbn. destruct (is_facing_right s); reflexivity.
  - apply triggers_dropped_during_action; [|exact Hall].
    unfold attack_2. destruct (0 <? attack_animation s)%Z eqn:Hb.
    + apply Z.ltb_lt. exact Hb.
    + cbn. destruct (is_facing_right s); reflexivity.
Qed.

Lemma first_trigger_wins_witness :
  forallb (fun e => negb (is_tick e)) [Attack2; Attack1; Attack2] = true
  /\ run [Attack1; Attack2; Attack1; Attack2] (OrcSprite_init (1 # 2))
     = Returned (attack_1 (OrcSprite_init (1 # 2))).
Proof.
  split; [reflexivity|].
  exact (proj1 (first_trigger_wins (OrcSprite_init (1 # 2))
                  [Attack2; Attack1; Attack2] eq_refl)).
Defined.

(** ** The key handlers *)

(** Case analysis on which branch of a handler a key takes. *)
Ltac case_key keys key :=
  destruct (Z.eqb key (key_W keys)) eqn:?;
  [| destruct (Z.eqb key (key_S keys)) eqn:?;
     [| destruct (Z.eqb key (key_A keys)) eqn:?;
        [| destruct (Z.eqb key (key_D keys)) eqn:? ]]].

(** Opens a window into its fields and tries every combination of flags. *)
Ltac by_flags w :=
  destruct w as [l r u d speed cx cy pp cp];
  destruct l, r, u, d; reflexivity.

(** Two keys that take the same branch are the same key. *)
Ltac same_branch Hne :=
  match goal with
  | H1 : (?k1 =? ?c)%Z = true, H2 : (?k2 =? ?c)%Z = true |- _ =>
      exfalso; apply Hne; apply Z.eqb_eq in H1; apply Z.eqb_eq in H2;
      rewrite H1, H2; reflexivity
  end.

Lemma update_player_speed_idempotent (w : AdventureGameWindow) :
  update_player_speed (update_player_speed w) = update_player_speed w.
Proof. by_flags w. Qed.

Lemma update_player_speed_forgets (a b : Z) (w : AdventureGameWindow) :
  update_player_speed (set_player_change_x a (set_player_change_y b w))
  = update_player_speed w.
Proof. by_flags w. Qed.

Lemma handle_in_sync (keys : KeyCodes) (e : key_event) (w : AdventureGameWindow) :
  update_player_speed w = w ->
  update_player_speed (handle keys e w) = handle keys e w.
Proof.
  intros Hw. destruct e as [key m|key m]; cbn;
    unfold on_key_press, on_key_release; case_key keys key;
    try exact Hw; apply update_player_speed_idempotent.
Qed.

Lemma handle_all_in_sync (keys : KeyCodes) (evs : list key_event) :
  forall w : AdventureGameWindow,
    update_player_speed w = w ->
    update_player_speed (handle_all keys evs w) = handle_all keys evs w.
Proof.
  unfold handle_all. induction evs as [|e evs IH]; intros w Hw; [exact Hw|].
  cbn. apply IH. apply handle_in_sync. exact Hw.
Qed.

(** X7.  The stored intent never lags behind the keys: starting from a
    window whose intent is what [update_player_speed] computes from its
    flags, after any sequence of key presses and releases (of any keys) the
    intent is again exactly what the flags then held dictate. *)
Theorem intent_follows_the_flags
    (keys : KeyCodes) (evs : list key_event) (w : AdventureGameWindow) :
  update_player_speed w = w ->
  let w' := handle_all keys evs w in
  update_player_speed w' = w'
  /\ player_change_x w'
     = (if left_pressed w' && negb (right_pressed w') then - player_speed w'
        else if right_pressed w' && negb (left_pressed w') then player_speed w'
        else 0)%Z
  /\ player_change_y w'
     = (if up_pressed w' && negb (down_pressed w') then player_speed w'
        else if down_pressed w' && negb (up_pressed w') then - player_speed w'
        else 0)%Z.
Proof.
  intros Hw. cbv zeta.
  pose proof (handle_all_in_sync keys evs w Hw) as Hsync.
  split; [exact Hsync|].
  set (w' := handle_all keys evs w) in *. clearbody w'.
  rewrite <- Hsync. clear.
  unfold update_player_speed.
  destruct w' as [l r u d speed cx cy pp cp].
  destruct l, r, u, d; cbn; split; reflexivity.
Qed.

Lemma intent_follows_the_flags_witness :
  update_player_speed (mkWindow false false false false 5 0 0 (100, 950) (0, 0))
  = mkWindow false false false false 5 0 0 (100, 950) (0, 0)
  /\ player_change_x
       (handle_all arcade_key [Press 97 0; Press 119 0; Press 100 0; Release 97 0]
          (mkWindow false false false false 5 0 0 (100, 950) (0, 0)))
     = 5%Z.
Proof.
  split; [reflexivity|].
  pose proof (intent_follows_the_flags arcade_key
                [Press 97 0; Press 119 0; Press 100 0; Release 97 0]
                (mkWindow false false false false 5 0 0 (100, 950) (0, 0))
                eq_refl) as H.
  cbv zeta in H. destruct H as [_ [Hx _]]. exact Hx.
Defined.

(** For one key, a later event wipes out an earlier one. *)
Lemma handle_same_key (keys : KeyCodes) (e1 e2 : key_event) (w : AdventureGameWindow) :
  key_of e1 = key_of e2 ->
  handle keys e2 (handle keys e1 w) = handle keys e2 w.
Proof.
  destruct e1 as [key m1|key m1], e2 as [key2 m2|key2 m2]; cbn;
    intros <-; unfold on_key_press, on_key_release; case_key keys key;
    first [ reflexivity | by_flags w ].
Qed.

(** Releasing a key that is not held, in a window whose intent matches its
    flags, changes nothing. *)
Lemma release_not_held (keys : KeyCodes) (key m : Z) (w : AdventureGameWindow) :
  update_player_speed w = w -> held keys key w = false ->
  on_key_release keys key m w = w.
Proof.
  unfold held, on_key_release. intros Hw Hheld.
  case_key keys key; try reflexivity;
    rewrite <- Hw at 2; f_equal;
    destruct w as [l r u d speed cx cy pp cp]; cbn in *; subst; reflexivity.
Qed.

(** X8.  For each key the last event decides: a press or release of a key
    followed by another event of the same key leaves the window exactly as
    the later event alone would.  In particular a repeated press changes
    nothing more, and a release undoes a press. *)
Theorem last_event_of_a_key_decides
    (keys : KeyCodes) (e1 e2 : key_event) (w : AdventureGameWindow) :
  key_of e1 = key_of e2 ->
  handle keys e2 (handle keys e1 w) = handle keys e2 w.
Proof. apply handle_same_key. Qed.

Lemma last_event_of_a_key_decides_witness :
  key_of (Press 97 0) = key_of (Release 97 0)
  /\ handle arcade_key (Release 97 0)
       (handle arcade_key (Press 97 0)
          (mkWindow false true false false 5 5 0 (100, 950) (0, 0)))
     = handle arcade_key (Release 97 0)
         (mkWindow false true false false 5 5 0 (100, 950) (0, 0)).
Proof.
  split; [reflexivity|].
  exact (last_event_of_a_key_decides arcade_key (Press 97 0) (Release 97 0)
           (mkWindow false true false false 5 5 0 (100, 950) (0, 0)) eq_refl).
Defined.

(** X9.  Tapping a key is a round trip: in a window whose intent matches its
    flags, pressing a key that is not held and releasing it again gives back
    the very same window, flags, intent and all. *)
Theorem key_tap_round_trip
    (keys : KeyCodes) (key m1 m2 : Z) (w : AdventureGameWindow) :
  update_player_speed w = w ->
  held keys key w = false ->
  on_key_release keys key m2 (on_key_press keys key m1 w) = w.
Proof.
  intros Hw Hheld.
  change (handle keys (Release key m2) (handle keys (Press key m1) w) = w).
  rewrite handle_same_key by reflexivity.
  apply release_not_held; assumption.
Qed.

Lemma key_tap_round_trip_witness :
  update_player_speed (mkWindow false true false false 5 5 0 (100, 950) (0, 0))
  = mkWindow false true false false 5 5 0 (100, 950) (0, 0)
  /\ held arcade_key 119 (mkWindow false true false false 5 5 0 (100, 950) (0, 0))
     = false
  /\ on_key_release arcade_key 119 0
       (on_key_press arcade_key 119 0
          (mkWindow false true false false 5 5 0 (100, 950) (0, 0)))
     = mkWindow false true false false 5 5 0 (100, 950) (0, 0).
Proof.
  split; [reflexivity|]. split; [reflexivity|].
  exact (key_tap_round_trip arcade_key 119 0 0
           (mkWindow false true false false 5 5 0 (100, 950) (0, 0))
           eq_refl eq_refl).
Defined.

(** X10.  Events of different keys do not interfere: handled in either
    order they leave the same window.  This needs nothing of the four key
    codes, not even that they differ. *)
Theorem events_of_different_keys_commute
    (keys : KeyCodes) (e1 e2 : key_event) (w : AdventureGameWindow) :
  key_of e1 <> key_of e2 ->
  handle keys e1 (handle keys e2 w) = handle keys e2 (handle keys e1 w).
Proof.
  destruct e1 as [k1 m1|k1 m1], e2 as [k2 m2|k2 m2]; cbn; intros Hne;
    unfold on_key_press, on_key_release;
    case_key keys k1; case_key keys k2;
    first [ same_branch Hne | by_flags w ].
Qed.

Lemma events_of_different_keys_commute_witness :
  key_of (Press 97 0) <> key_of (Release 100 0)
  /\ handle arcade_key (Press 97 0)
       (handle arcade_key (Release 100 0)
          (mkWindow false true true false 5 5 5 (100, 950) (0, 0)))
     = handle arcade_key (Release 100 0)
         (handle arcade_key (Press 97 0)
            (mkWindow false true true false 5 5 5 (100, 950) (0, 0))).
Proof.
  assert (Hne : key_of (Press 97 0) <> key_of (Release 100 0))
    by (cbn; discriminate).
  split; [exact Hne|].
  exact (events_of_different_keys_commute arcade_key (Press 97 0) (Release 100 0)
           (mkWindow false true true false 5 5 5 (100, 950) (0, 0)) Hne).
Defined.

Lemma handle_frame (keys : KeyCodes) (e : key_event) (w : AdventureGameWindow) :
  player_speed (handle keys e w) = player_speed w
  /\ player_position (handle keys e w) = player_position w
  /\ camera_position (handle keys e w) = camera_position w.
Proof.
  destruct e as [key m|key m]; cbn; unfold on_key_press, on_key_release;
    case_key keys key;
    first [ repeat split; reflexivity
          | destruct w as [l r u d speed cx cy pp cp];
            destruct l, r, u, d; repeat split; reflexivity ].
Qed.

(** X11.  Key events never reach beyond the flags and the intent: after any
    sequence of them the player's speed setting, the player's position and
    the camera position are what they were; and a sequence made only of keys
    other than the four the handlers know leaves the whole window as it
    was. *)
Theorem key_events_touch_only_flags_and_intent
    (keys : KeyCodes) (evs : list key_event) (w : AdventureGameWindow) :
  (player_speed (handle_all keys evs w) = player_speed w
   /\ player_position (handle_all keys evs w) = player_position w
   /\ camera_position (handle_all keys evs w) = camera_position w)
  /\ (Forall (fun e => key_of e <> key_W keys /\ key_of e <> key_S keys
                       /\ key_of e <> key_A keys /\ key_of e <> key_D keys) evs ->
      handle_all keys evs w = w).
Proof.
  unfold handle_all. revert w. induction evs as [|e evs IH]; intros w.
  - split; [repeat split | reflexivity].
  - cbn. destruct (IH (handle keys e w)) as [[Hs [Hp Hc]] Hother].
    destruct (handle_frame keys e w) as [Hs1 [Hp1 Hc1]].
    split; [repeat split; congruence|].
    intros Hall. inversion Hall as [|e' evs' [HW [HS [HA HD]]] Hrest]; subst.
    rewrite (Hother Hrest).
    apply Z.eqb_neq in HW, HS, HA, HD.
    destruct e as [key m|key m]; cbn in *;
      unfold on_key_press, on_key_release; rewrite HW, HS, HA, HD; reflexivity.
Qed.

Lemma key_events_touch_only_flags_and_intent_witness :
  Forall (fun e => key_of e <> key_W arcade_key /\ key_of e <> key_S arcade_key
                   /\ key_of e <> key_A arcade_key /\ key_of e <> key_D arcade_key)
         [Press 32 0; Release 32 0]
  /\ handle_all arcade_key [Press 32 0; Release 32 0]
       (mkWindow true false false false 5 (-5) 0 (100, 950) (0, 0))
     = mkWindow true false false false 5 (-5) 0 (100, 950) (0, 0).
Proof.
  assert (H : Forall (fun e => key_of e <> key_W arcade_key
                               /\ key_of e <> key_S arcade_key
                               /\ key_of e <> key_A arcade_key
                               /\ key_of e <> key_D arcade_key)
                     [Press 32 0; Release 32 0]).
  { repeat constructor; cbn; discriminate. }
  split; [exact H|].
  exact (proj2 (key_events_touch_only_flags_and_intent arcade_key
                  [Press 32 0; Release 32 0]
                  (mkWindow true false false false 5 (-5) 0 (100, 950) (0, 0))) H).
Defined.

(** X12.  [update_player_speed] starts from scratch each time: whatever
    intent the window held before is forgotten, so the result depends on the
    flags and the speed alone, and calling it a second time changes nothing.
    Either component of the result is the speed, its negative, or 0. *)
Theorem update_player_speed_overwrites (a b : Z) (w : AdventureGameWindow) :
  update_player_speed (set_player_change_x a (set_player_change_y b w))
  = update_player_speed w
  /\ update_player_speed (update_player_speed w) = update_player_speed w
  /\ (player_change_x (update_player_speed w) = player_speed w
      \/ player_change_x (update_player_speed w) = (- player_speed w)%Z
      \/ player_change_x (update_player_speed w) = 0%Z)
  /\ (player_change_y (update_player_speed w) = player_speed w
      \/ player_change_y (update_player_speed w) = (- player_speed w)%Z
      \/ player_change_y (update_player_speed w) = 0%Z).
Proof.
  split; [apply update_player_speed_forgets|].
  split; [apply update_player_speed_idempotent|].
  destruct w as [l r u d speed cx cy pp cp].
  destruct l, r, u, d; cbn; tauto.
Qed.

(** X13.  Diagonal movement is not slowed down: with exactly one of left and
    right held and exactly one of up and down held, both components of the
    intent have the full speed, so the squared length of the intent is twice
    the squared speed. *)
Theorem diagonal_intent_is_not_normalised (w : AdventureGameWindow) :
  left_pressed w <> right_pressed w ->
  up_pressed w <> down_pressed w ->
  let w' := update_player_speed w in
  Z.abs (player_change_x w') = Z.abs (player_speed w)
  /\ Z.abs (player_change_y w') = Z.abs (player_speed w)
  /\ (player_change_x w' * player_change_x w'
      + player_change_y w' * player_change_y w'
      = 2 * (player_speed w * player_speed w))%Z.
Proof.
  destruct w as [l r u d speed cx cy pp cp]. cbn [left_pressed right_pressed
    up_pressed down_pressed].
  intros Hx Hy. destruct l, r; try (contradiction Hx; reflexivity);
    destruct u, d; try (contradiction Hy; reflexivity);
    cbv zeta; cbn -[Z.mul]; rewrite ?Z.abs_opp; repeat split; ring.
Qed.

Lemma diagonal_intent_is_not_normalised_witness :
  left_pressed (mkWindow false true true false 5 0 0 (100, 950) (0, 0))
  <> right_pressed (mkWindow false true true false 5 0 0 (100, 950) (0, 0))
  /\ up_pressed (mkWindow false true true false 5 0 0 (100, 950) (0, 0))
     <> down_pressed (mkWindow false true true false 5 0 0 (100, 950) (0, 0))
  /\ Z.abs (player_change_x
              (update_player_speed
                 (mkWindow false true true false 5 0 0 (100, 950) (0, 0))))
     = Z.abs 5
  /\ Z.abs (player_change_y
              (update_player_speed
                 (mkWindow false true true false 5 0 0 (100, 950) (0, 0))))
     = Z.abs 5.
Proof.
  assert (Hx : left_pressed (mkWindow false true true false 5 0 0 (100, 950) (0, 0))
               <> right_pressed (mkWindow false true true false 5 0 0 (100, 950) (0, 0)))
    by (cbn; discriminate).
  assert (Hy : up_pressed (mkWindow false true true false 5 0 0 (100, 950) (0, 0))
               <> down_pressed (mkWindow false true true false 5 0 0 (100, 950) (0, 0)))
    by (cbn; discriminate).
  split; [exact Hx|]. split; [exact Hy|].
  pose proof (diagonal_intent_is_not_normalised
                (mkWindow false true true false 5 0 0 (100, 950) (0, 0)) Hx Hy)
    as H.
  cbv zeta in H. destruct H as [H1 [H2 _]]. split; [exact H1 | exact H2].
Defined.

(** ** The camera over many frames *)

Lemma scroll_frames_player (n : nat) (w : AdventureGameWindow) :
  player_position (scroll_frames n w) = player_position w.
Proof.
  induction n as [|n IH]; [reflexivity|].
  unfold scroll_frames in *. cbn. exact IH.
Qed.

Lemma scroll_frames_succ (n : nat) (w : AdventureGameWindow) :
  camera_position (scroll_frames (S n) w)
  = scroll CAMERA_BOUNDARY CAMERA_SPEED
           (camera_position (scroll_frames n w)) (player_position w).
Proof.
  rewrite <- (scroll_frames_player n w). reflexivity.
Qed.

(** X14.  While the player stays inside the boundary around the camera (an
    offset within 400 across and 200 up and down), the camera does not
    move, however many frames pass. *)
Theorem camera_rests_in_dead_zone (n : nat) (w : AdventureGameWindow) :
  - (400) <= fst (player_position w) - fst (camera_position w) ->
  fst (player_position w) - fst (camera_position w) <= 400 ->
  - (200) <= snd (player_position w) - snd (camera_position w) ->
  snd (player_position w) - snd (camera_position w) <= 200 ->
  pt_eq (camera_position (scroll_frames n w)) (camera_position w)
  /\ player_position (scroll_frames n w) = player_position w.
Proof.
  intros Hx1 Hx2 Hy1 Hy2. split; [|apply scroll_frames_player].
  destruct boundary_values as [HW HH].
  induction n as [|n [IHx IHy]]; [split; reflexivity|].
  rewrite scroll_frames_succ.
  set (c := camera_position (scroll_frames n w)) in *.
  unfold scroll, constrain_boundary_xy, lerp_2d, lerp, pt_eq, CAMERA_BOUNDARY.
  cbn [fst snd rect_left rect_right rect_bottom rect_top].
  destruct (constrain_axis_cases (- HORIZONTAL_BOUNDARY) HORIZONTAL_BOUNDARY
              (fst c) (fst (player_position w))) as [Hx _]; [lra|].
  destruct (constrain_axis_cases (- VERTICAL_BOUNDARY) VERTICAL_BOUNDARY
              (snd c) (snd (player_position w))) as [Hy _]; [lra|].
  rewrite Hx, Hy by lra. split; lra.
Qed.

Lemma camera_rests_in_dead_zone_witness :
  (- (400) <= fst (350, 850) - fst (0, 1000)
   /\ fst (350, 850) - fst (0, 1000) <= 400
   /\ - (200) <= snd (350, 850) - snd (0, 1000)
   /\ snd (350, 850) - snd (0, 1000) <= 200)
  /\ pt_eq (camera_position
              (scroll_frames 4
                 (mkWindow false false false false 5 0 0 (350, 850) (0, 1000))))
           (0, 1000).
Proof.
  assert (H1 : - (400) <= fst (350, 850) - fst (0, 1000)) by (cbn; lra).
  assert (H2 : fst (350, 850) - fst (0, 1000) <= 400) by (cbn; lra).
  assert (H3 : - (200) <= snd (350, 850) - snd (0, 1000)) by (cbn; lra).
  assert (H4 : snd (350, 850) - snd (0, 1000) <= 200) by (cbn; lra).
  split; [repeat split; assumption|].
  exact (proj1 (camera_rests_in_dead_zone 4
                  (mkWindow false false false false 5 0 0 (350, 850) (0, 1000))
                  H1 H2 H3 H4)).
Defined.

(** ** Reading a key back *)

(** X16.  The flags record the keys: after a release the key reads as not
    held; after a press of one of the four keys it reads as held; and an
    event of one key leaves the reading of every other key as it was. *)
Theorem flags_record_the_keys
    (keys : KeyCodes) (e : key_event) (key' : Z) (w : AdventureGameWindow) :
  (forall key m : Z, e = Release key m -> held keys key (handle keys e w) = false)
  /\ (forall key m : Z,
        e = Press key m ->
        key = key_W keys \/ key = key_S keys \/ key = key_A keys \/ key = key_D keys ->
        held keys key (handle keys e w) = true)
  /\ (key' <> key_of e -> held keys key' (handle keys e w) = held keys key' w).
Proof.
  split; [|split].
  - intros key m ->. cbn. unfold held, on_key_release.
    case_key keys key; first [ reflexivity | by_flags w ].
  - intros key m -> Hknown. cbn. unfold held, on_key_press.
    case_key keys key;
      try (exfalso;
           repeat match goal with
                  | H : (_ =? _)%Z = false |- _ => apply Z.eqb_neq in H
                  end; tauto);
      by_flags w.
  - intros Hne. unfold held.
    destruct e as [key m|key m]; cbn in Hne |- *;
      unfold on_key_press, on_key_release;
      case_key keys key; case_key keys key';
      first [ same_branch Hne | reflexivity | by_flags w ].
Qed.

Lemma flags_record_the_keys_witness :
  (119%Z = key_W arcade_key \/ 119%Z = key_S arcade_key
   \/ 119%Z = key_A arcade_key \/ 119%Z = key_D arcade_key)
  /\ held arcade_key 119
       (handle arcade_key (Press 119 0)
          (mkWindow false false false false 5 0 0 (100, 950) (0, 0)))
     = true.
Proof.
  assert (Hknown : 119%Z = key_W arcade_key \/ 119%Z = key_S arcade_key
                   \/ 119%Z = key_A arcade_key \/ 119%Z = key_D arcade_key)
    by (left; reflexivity).
  split; [exact Hknown|].
  exact (proj1 (proj2 (flags_record_the_keys arcade_key (Press 119 0) 0
                         (mkWindow false false false false 5 0 0 (100, 950) (0, 0))))
           119%Z 0%Z eq_refl Hknown).
Defined.
